(** * Recording session engine of macos-whisper-bar: a shallow embedding

    These parts of the Rust sources are embedded here:
    - the audio codec of [src-tauri/src/sck_audio_helper.rs]
      ([decode_i16_mono], [decode_f32_mono], [mix_to_mono],
      [resample_to_output_rate], [float_to_pcm_bytes]) and the capture
      callback [did_output_sample_buffer] that drives it;
    - the session state machine of [src-tauri/src/worker.rs]
      ([start_recording], [model_ready], [handle_worker_event],
      [stop_recording]) over the [StateInner] record of
      [src-tauri/src/app_state.rs];
    - the start-up state and the settings file of [app_state.rs]
      ([StateInner::new], [is_model_installed], [save_settings],
      [load_settings]), the model catalogue of [models.rs], the default
      microphone choice of [audio.rs], the commands of [lib.rs]
      ([set_language], [set_model], [set_audio_inputs], [clear_error],
      [refresh_audio_devices_inner]) and [save_markdown] of
      [transcript_file.rs].

    Samples are [f32] in the source.  They are modelled by the rational
    number they denote; every arithmetic operation the source performs in
    [f32] (and every integer-to-[f32] cast) is followed by a rounding
    function [fl : Q -> Q].  The codec is written once for an arbitrary
    [fl]; [fl32] below is IEEE-754 binary32 round-to-nearest-even on the
    finite range, and [exact] (no rounding) is the real-number reading. *)

From Stdlib Require Import String Ascii ZArith QArith Qround Qabs Lqa Lia
  List Bool.
Import ListNotations.

Open Scope Z_scope.

(* ================================================================== *)
(** ** IEEE-754 binary32 rounding on rationals *)

Module F32.

Open Scope Q_scope.

(** Strict comparison of rationals as a boolean. *)
Definition Qlt_bool (x y : Q) : bool := negb (Qle_bool y x).

(** [2^e] as a rational, for any integer [e]. *)
Definition pow2 (e : Z) : Q :=
  if Z.leb 0 e then inject_Z (2 ^ e) else 1 # Z.to_pos (2 ^ (- e)).

(** [floor (log2 q)] for [q > 0]. *)
Definition floor_log2 (q : Q) : Z :=
  let e0 := (Z.log2 (Qnum q) - Z.log2 (Zpos (Qden q)))%Z in
  match Qcompare q (pow2 e0) with
  | Lt => (e0 - 1)%Z
  | _ => e0
  end.

(** Round to the nearest integer, ties to even. *)
Definition round_ne (x : Q) : Z :=
  let f := Qfloor x in
  match Qcompare (x - inject_Z f) (1 # 2) with
  | Lt => f
  | Gt => (f + 1)%Z
  | Eq => if Z.even f then f else (f + 1)%Z
  end.

(** Rounding to binary32 (24-bit significand, minimum normal exponent
    -126, subnormals below it); overflow to infinity is not modelled. *)
Definition fl32 (q : Q) : Q :=
  match Qnum q with
  | Z0 => 0
  | _ =>
      let a := Qabs q in
      let e := Z.max (floor_log2 a) (-126) in
      let m := round_ne (a * pow2 (23 - e)) in
      let r := inject_Z m * pow2 (e - 23) in
      if Z.ltb (Qnum q) 0 then - r else r
  end.

(** No rounding at all: the real-number reading of the code. *)
Definition exact (q : Q) : Q := q.

(** Properties every round-to-nearest binary32 rounding has on the finite
    range (relative error [2^-24], absolute error [2^-150] on subnormals,
    monotonicity, exact small integers, Sterbenz's lemma).  [exact] has
    them too. *)
Class Rounding (fl : Q -> Q) : Prop := {
  fl_proper : forall x y, x == y -> fl x == fl y;
  fl_mono : forall x y, x <= y -> fl x <= fl y;
  fl_int : forall z : Z, (- 2 ^ 24 <= z <= 2 ^ 24)%Z -> fl (inject_Z z) == inject_Z z;
  fl_err : forall x, Qabs (fl x - x) <= Qabs x * (1 # 16777216) + (1 # 2 ^ 150);
  fl_sterbenz : forall x y, fl x == x -> fl y == y -> y * (1 # 2) <= x <= 2 * y ->
                fl (x - y) == x - y
}.

End F32.

(* ================================================================== *)
(** ** The audio codec ([sck_audio_helper.rs]) *)

Module Codec.

Import F32.
Open Scope Q_scope.

(** [const OUTPUT_SAMPLE_RATE: f32 = 16_000.0] *)
Definition OUTPUT_SAMPLE_RATE : Q := 16000.
(** [const OUTPUT_GAIN: f32 = 1.25] *)
Definition OUTPUT_GAIN : Q := 5 # 4.
(** [i16::MAX] *)
Definition I16_MAX : Z := 32767.

(** One entry of an [AudioBufferList]: its channel count and raw bytes. *)
Record AudioBuffer := {
  number_channels : Z;  (* u32 *)
  data : list Z         (* bytes, each in [0, 255] *)
}.

(** [bytes.chunks_exact(2)] and [bytes.chunks_exact(4)] (the remainder is
    dropped). *)
Fixpoint chunks_exact2 (l : list Z) : list (Z * Z) :=
  match l with
  | b0 :: b1 :: rest => (b0, b1) :: chunks_exact2 rest
  | _ => []
  end.

Fixpoint chunks_exact4 (l : list Z) : list (Z * Z * Z * Z) :=
  match l with
  | b0 :: b1 :: b2 :: b3 :: rest => (b0, b1, b2, b3) :: chunks_exact4 rest
  | _ => []
  end.

(** [i16::from_le_bytes] *)
Definition i16_from_le_bytes (b0 b1 : Z) : Z :=
  let u := (b0 + 256 * b1)%Z in
  if Z.leb 32768 u then (u - 65536)%Z else u.

(** [i16::to_le_bytes] *)
Definition i16_to_le_bytes (v : Z) : list Z :=
  let u := (v mod 65536)%Z in [(u mod 256)%Z; (u / 256)%Z].

(** Rust's [f32::round]: half-way cases away from zero. *)
Definition round_half_away (x : Q) : Z :=
  if Qle_bool 0 x then Qfloor (x + (1 # 2)) else (- Qfloor (- x + (1 # 2)))%Z.

(** [as i16] on an integral float: saturating. *)
Definition sat_i16 (z : Z) : Z := Z.max (-32768) (Z.min 32767 z).

(** [f32::clamp(lo, hi)] *)
Definition clamp (x lo hi : Q) : Q :=
  if Qlt_bool x lo then lo else if Qlt_bool hi x then hi else x.

Section WithRounding.

Variable fl : Q -> Q.

(** Value of the [f32] whose little-endian bytes are given
    ([f32::from_le_bytes]); the float path is not needed by the claims. *)
Variable f32_from_le_bytes : Z * Z * Z * Z -> Q.

(** The interleaved-channel loop shared by both decoders: accumulate
    [channel_count] samples, then push their mean. *)
Fixpoint average_frames (channel_count : nat) (samples : list Q)
    (frame_acc : Q) (channel_index : nat) : list Q :=
  match samples with
  | [] => []
  | value :: rest =>
      let frame_acc := fl (frame_acc + value) in
      let channel_index := S channel_index in
      if Nat.eqb channel_index channel_count then
        fl (frame_acc / fl (inject_Z (Z.of_nat channel_count)))
          :: average_frames channel_count rest 0 0
      else average_frames channel_count rest frame_acc channel_index
  end.

Definition decode_i16_mono (bytes : list Z) (channel_count : nat) : list Q :=
  let sample c := fl (fl (inject_Z (i16_from_le_bytes (fst c) (snd c))) / 32768) in
  match channel_count with
  | O => []
  | S O => map sample (chunks_exact2 bytes)
  | _ => average_frames channel_count (map sample (chunks_exact2 bytes)) 0 0
  end.

Definition decode_f32_mono (bytes : list Z) (channel_count : nat) : list Q :=
  match channel_count with
  | O => []
  | S O => map f32_from_le_bytes (chunks_exact4 bytes)
  | _ => average_frames channel_count (map f32_from_le_bytes (chunks_exact4 bytes)) 0 0
  end.

(** Decoding of one buffer inside the loop of [mix_to_mono]. *)
Definition decode_buffer (is_float : bool) (buffer : AudioBuffer) : list Q :=
  let channel_count := Z.to_nat (Z.max (number_channels buffer) 1) in
  if is_float then decode_f32_mono (data buffer) channel_count
  else decode_i16_mono (data buffer) channel_count.

(** [per_buffer.iter().map(Vec::len).min()] *)
Fixpoint min_len (l : list (list Q)) : option nat :=
  match l with
  | [] => None
  | s :: rest =>
      match min_len rest with
      | None => Some (length s)
      | Some m => Some (Nat.min (length s) m)
      end
  end.

(** [for (index, sample) in stream.iter().take(min_len).enumerate()
       { mixed[index] += *sample; }] *)
Fixpoint add_stream (mixed stream : list Q) : list Q :=
  match mixed, stream with
  | m :: ms, s :: ss => fl (m + s) :: add_stream ms ss
  | _, _ => mixed
  end.

(** The part of [mix_to_mono] after the decoding loop, on the decoded
    buffers that were kept. *)
Definition mix_per_buffer (per_buffer : list (list Q)) : list Q :=
  match per_buffer with
  | [] => []
  | [only] => only
  | _ =>
      match min_len per_buffer with
      | None => []
      | Some O => []
      | Some n =>
          let mixed := fold_left add_stream per_buffer (repeat 0 n) in
          let divisor := fl (inject_Z (Z.of_nat (length per_buffer))) in
          map (fun sample => fl (sample / divisor)) mixed
      end
  end.

Definition is_nonempty {A} (l : list A) : bool :=
  match l with [] => false | _ => true end.

Definition mix_to_mono (buffers : list AudioBuffer) (is_float : bool) : list Q :=
  let per_buffer := filter is_nonempty (map (decode_buffer is_float) buffers) in
  mix_per_buffer per_buffer.

(** Column [j] of the accumulation loop of [mix_to_mono]: the [f32] sum
    [((0 + s1[j]) + s2[j]) + ...] over the kept buffers, in order. *)
Definition column_sum (per_buffer : list (list Q)) (j : nat) : Q :=
  fold_left (fun acc stream => fl (acc + nth j stream 0)) per_buffer 0.

(** Body of the interpolation loop of [resample_to_output_rate] at
    output index [index]. *)
Definition source_pos (ratio : Q) (index : nat) : Q :=
  fl (fl (inject_Z (Z.of_nat index)) * ratio).

Definition base_index_at (ratio : Q) (index : nat) : nat :=
  Z.to_nat (Qfloor (source_pos ratio index)).

Definition interpolate (input : list Q) (ratio : Q) (index : nat) : Q :=
  let source_pos := source_pos ratio index in
  let base_index := base_index_at ratio index in
  let next_index := Nat.min (base_index + 1) (length input - 1) in
  let fraction := fl (source_pos - fl (inject_Z (Z.of_nat base_index))) in
  fl (fl (nth base_index input 0 * fl (1 - fraction))
      + fl (nth next_index input 0 * fraction)).

(** [for index in 0..output_len { ...; if base_index >= input.len()
    { break; } ...; out.push(value); }]: [index] starts at [0] and [fuel]
    counts the iterations left. *)
Fixpoint resample_loop (input : list Q) (ratio : Q) (fuel index : nat) : list Q :=
  match fuel with
  | O => []
  | S fuel' =>
      if Nat.leb (length input) (base_index_at ratio index) then []
      else interpolate input ratio index :: resample_loop input ratio fuel' (S index)
  end.

Definition resample_output_len (input : list Q) (ratio : Q) : nat :=
  Z.to_nat (Qfloor (fl (fl (inject_Z (Z.of_nat (length input))) / ratio))).

Definition resample_to_output_rate (input : list Q) (source_rate : Q) : list Q :=
  if is_nonempty input && negb (Qle_bool source_rate 0) then
    if Qlt_bool (Qabs (fl (source_rate - OUTPUT_SAMPLE_RATE))) 1 then input
    else
      let ratio := fl (source_rate / OUTPUT_SAMPLE_RATE) in
      let output_len := resample_output_len input ratio in
      resample_loop input ratio output_len 0
  else [].

(** One sample of [float_to_pcm_bytes]: the [i16] it is written as. *)
Definition quantize_sample (sample : Q) : Z :=
  let amplified := clamp (fl (sample * OUTPUT_GAIN)) (-1) 1 in
  sat_i16 (round_half_away (fl (amplified * inject_Z I16_MAX))).

Definition float_to_pcm_bytes (input : list Q) : list Z :=
  flat_map (fun sample => i16_to_le_bytes (quantize_sample sample)) input.

End WithRounding.

End Codec.

(* ================================================================== *)
(** ** Session state ([app_state.rs]) *)

Module Session.

(** A Rust [String] as its sequence of Unicode scalar values. *)
Definition rstring := list Z.

(** A string literal of the source (all literals used are ASCII). *)
Definition lit (s : string) : rstring :=
  map (fun a => Z.of_nat (nat_of_ascii a)) (list_ascii_of_string s).

(** [char::is_whitespace]: the Unicode [White_Space] property. *)
Definition is_whitespace (c : Z) : bool :=
  ((9 <=? c) && (c <=? 13)) || (c =? 32) || (c =? 133) || (c =? 160)
  || (c =? 5760) || ((8192 <=? c) && (c <=? 8202)) || (c =? 8232)
  || (c =? 8233) || (c =? 8239) || (c =? 8287) || (c =? 12288).

Fixpoint trim_start (s : rstring) : rstring :=
  match s with
  | c :: rest => if is_whitespace c then trim_start rest else s
  | [] => []
  end.

(** [str::trim] *)
Definition trim (s : rstring) : rstring := rev (trim_start (rev (trim_start s))).

(** [str::is_empty] *)
Definition is_empty (s : rstring) : bool :=
  match s with [] => true | _ => false end.

(** Number of bytes of a scalar value in UTF-8 ([char::len_utf8]). *)
Definition len_utf8 (c : Z) : Z :=
  if c <? 128 then 1 else if c <? 2048 then 2 else if c <? 65536 then 3 else 4.

(** [String::len]: the length in bytes of the UTF-8 encoding. *)
Definition str_len (s : rstring) : Z := fold_right (fun c n => len_utf8 c + n) 0 s.

(** A file-system path as its components ([PathBuf]). *)
Definition path := list rstring.

(** [Path::join] with one component. *)
Definition join (p : path) (name : string) : path := p ++ [lit name].

Inductive AppStatus := Idle | Installing | Ready | Recording | Error.

Definition AppStatus_eqb (a b : AppStatus) : bool :=
  match a, b with
  | Idle, Idle | Installing, Installing | Ready, Ready
  | Recording, Recording | Error, Error => true
  | _, _ => false
  end.

(** [WorkerProcess]: the child and the handles taken from it, named by
    identifiers. *)
Record WorkerProcess := {
  child : nat;
  stdin : option nat;
  stdout_task : option nat;
  stderr_task : option nat
}.

Record StateInner := {
  status : AppStatus;
  status_message : rstring;
  language : rstring;
  selected_model_id : rstring;
  selected_mic_device : option rstring;
  transcript : rstring;
  last_saved_path : option rstring;
  install_progress : option Q;
  error_message : option rstring;
  app_data_dir : path;
  scripts_dir : path;
  bootstrap_script : path;
  worker_script : path;
  venv_python : path;
  model_path : path;
  worker : option WorkerProcess
}.

(** Field assignments [inner.f = v] on [StateInner]. *)
Definition set_status (v : AppStatus) (s : StateInner) : StateInner :=
  {| status := v; status_message := status_message s;
     language := language s; selected_model_id := selected_model_id s;
     selected_mic_device := selected_mic_device s;
     transcript := transcript s; last_saved_path := last_saved_path s;
     install_progress := install_progress s;
     error_message := error_message s; app_data_dir := app_data_dir s;
     scripts_dir := scripts_dir s; bootstrap_script := bootstrap_script s;
     worker_script := worker_script s; venv_python := venv_python s;
     model_path := model_path s; worker := worker s |}.
Definition set_status_message (v : rstring) (s : StateInner) : StateInner :=
  {| status := status s; status_message := v; language := language s;
     selected_model_id := selected_model_id s;
     selected_mic_device := selected_mic_device s;
     transcript := transcript s; last_saved_path := last_saved_path s;
     install_progress := install_progress s;
     error_message := error_message s; app_data_dir := app_data_dir s;
     scripts_dir := scripts_dir s; bootstrap_script := bootstrap_script s;
     worker_script := worker_script s; venv_python := venv_python s;
     model_path := model_path s; worker := worker s |}.
Definition set_transcript (v : rstring) (s : StateInner) : StateInner :=
  {| status := status s; status_message := status_message s;
     language := language s; selected_model_id := selected_model_id s;
     selected_mic_device := selected_mic_device s; transcript := v;
     last_saved_path := last_saved_path s;
     install_progress := install_progress s;
     error_message := error_message s; app_data_dir := app_data_dir s;
     scripts_dir := scripts_dir s; bootstrap_script := bootstrap_script s;
     worker_script := worker_script s; venv_python := venv_python s;
     model_path := model_path s; worker := worker s |}.
Definition set_last_saved_path (v : option rstring) (s : StateInner) : StateInner :=
  {| status := status s; status_message := status_message s;
     language := language s; selected_model_id := selected_model_id s;
     selected_mic_device := selected_mic_device s;
     transcript := transcript s; last_saved_path := v;
     install_progress := install_progress s;
     error_message := error_message s; app_data_dir := app_data_dir s;
     scripts_dir := scripts_dir s; bootstrap_script := bootstrap_script s;
     worker_script := worker_script s; venv_python := venv_python s;
     model_path := model_path s; worker := worker s |}.
Definition set_install_progress (v : option Q) (s : StateInner) : StateInner :=
  {| status := status s; status_message := status_message s;
     language := language s; selected_model_id := selected_model_id s;
     selected_mic_device := selected_mic_device s;
     transcript := transcript s; last_saved_path := last_saved_path s;
     install_progress := v; error_message := error_message s;
     app_data_dir := app_data_dir s; scripts_dir := scripts_dir s;
     bootstrap_script := bootstrap_script s;
     worker_script := worker_script s; venv_python := venv_python s;
     model_path := model_path s; worker := worker s |}.
Definition set_error_message (v : option rstring) (s : StateInner) : StateInner :=
  {| status := status s; status_message := status_message s;
     language := language s; selected_model_id := selected_model_id s;
     selected_mic_device := selected_mic_device s;
     transcript := transcript s; last_saved_path := last_saved_path s;
     install_progress := install_progress s; error_message := v;
     app_data_dir := app_data_dir s; scripts_dir := scripts_dir s;
     bootstrap_script := bootstrap_script s;
     worker_script := worker_script s; venv_python := venv_python s;
     model_path := model_path s; worker := worker s |}.
Definition set_worker (v : option WorkerProcess) (s : StateInner) : StateInner :=
  {| status := status s; status_message := status_message s;
     language := language s; selected_model_id := selected_model_id s;
     selected_mic_device := selected_mic_device s;
     transcript := transcript s; last_saved_path := last_saved_path s;
     install_progress := install_progress s;
     error_message := error_message s; app_data_dir := app_data_dir s;
     scripts_dir := scripts_dir s; bootstrap_script := bootstrap_script s;
     worker_script := worker_script s; venv_python := venv_python s;
     model_path := model_path s; worker := v |}.

End Session.


(* ================================================================== *)
(** ** The worker supervisor ([worker.rs]) *)

Module Worker.

Import Session.

(** Observable effects outside the session state, in the order the code
    performs them. *)
Inductive effect :=
| EmitState (snapshot : StateInner)   (* [app.emit("whisperbar://state", ..)] *)
| CreateDirAll (p : path)
| WriteScript (p : path)                (* [write_if_changed(p, ..)] returned [Ok] *)
| SpawnWorker (program : path) (args : list rstring)
| SpawnReader (stream : rstring)
| WriteStdin (bytes : rstring)
| KillWorker (pid : nat)
| SaveMarkdown (text : rstring)
| HideTrayWindow
| ShowTrayWindow
| EnsureFloatingWindow
| CloseFloatingWindow.

(** The shared session behind its mutex, the file system (the set of
    existing paths) and the effects performed so far (latest first). *)
Record World := {
  state : StateInner;
  fs : list path;
  log : list effect
}.

(** [anyhow::Result]: the error is its displayed message. *)
Inductive result (A : Type) := Ok (a : A) | Err (msg : rstring).
Arguments Ok {A} a.
Arguments Err {A} msg.

(** Each command runs to completion with exclusive access to the world;
    [?] is [bind] on [Err]. *)
Definition M (A : Type) := World -> result A * World.

Definition ret {A} (a : A) : M A := fun w => (Ok a, w).

Definition bind {A B} (m : M A) (k : A -> M B) : M B :=
  fun w => match m w with
           | (Ok a, w') => k a w'
           | (Err e, w') => (Err e, w')
           end.

Notation "x <- m ;; k" := (bind m (fun x => k))
  (at level 61, m at next level, right associativity).
Notation "m ;;; k" := (bind m (fun _ => k))
  (at level 61, right associativity).

Definition throw {A} (msg : rstring) : M A := fun w => (Err msg, w).

Definition perform (e : effect) : M unit :=
  fun w => (Ok tt, {| state := state w; fs := fs w; log := e :: log w |}).

(** [let guard = state.0.lock().await;] and reading through it. *)
Definition read_state : M StateInner := fun w => (Ok (state w), w).

Definition read_fs : M (list path) := fun w => (Ok (fs w), w).

(** Mutation through the guard, without publishing a snapshot. *)
Definition write_state (f : StateInner -> StateInner) : M unit :=
  fun w => (Ok tt, {| state := f (state w); fs := fs w; log := log w |}).

Definition write_fs (f : list path -> list path) : M unit :=
  fun w => (Ok tt, {| state := state w; fs := f (fs w); log := log w |}).

(** [app_state::emit_state] *)
Definition emit_state : M unit :=
  fun w => (Ok tt, {| state := state w; fs := fs w; log := EmitState (state w) :: log w |}).

(** [app_state::update_state]: apply the closure under the lock, then
    publish the snapshot. *)
Definition update_state (updater : StateInner -> StateInner) : M unit :=
  write_state updater ;;; emit_state.

(* ------------------------------------------------------------------ *)
(** *** File system *)

Definition rstring_eqb (a b : rstring) : bool :=
  if list_eq_dec Z.eq_dec a b then true else false.

Definition path_eqb (p q : path) : bool :=
  if list_eq_dec (list_eq_dec Z.eq_dec) p q then true else false.

(** [Path::exists] *)
Definition path_exists (fs : list path) (p : path) : bool := existsb (path_eqb p) fs.

(** Name of [q] if it is an entry of directory [p]. *)
Definition entry_name (p q : path) : option rstring :=
  if Nat.eqb (length q) (S (length p)) && path_eqb (firstn (length p) q) p
  then Some (last q []) else None.

(** [fs::read_dir(p)] followed by [file_name().to_string_lossy()]. *)
Definition read_dir (fs : list path) (p : path) : option (list rstring) :=
  if path_exists fs p
  then Some (flat_map (fun q => match entry_name p q with
                                | Some n => [n]
                                | None => []
                                end) fs)
  else None.

(** [str::starts_with] *)
Definition starts_with (s prefix : rstring) : bool :=
  rstring_eqb (firstn (length prefix) s) prefix.

Definition model_ready (fs : list path) (model_path : path) : bool :=
  if negb (path_exists fs model_path)
     || negb (path_exists fs (join model_path "config.json"))
  then false
  else match read_dir fs model_path with
       | None => false
       | Some names =>
           existsb (fun name => starts_with name (lit "weights.")
                                || starts_with name (lit "model")) names
       end.

(** [path.display().to_string()] *)
Fixpoint display (p : path) : rstring :=
  match p with
  | [] => []
  | [c] => c
  | c :: rest => c ++ lit "/" ++ display rest
  end.

Definition add_path (p : path) (fs : list path) : list path :=
  if path_exists fs p then fs else p :: fs.

(** [fs::create_dir_all]: the directory and all its ancestors. *)
Definition create_dir_all (p : path) (fs : list path) : list path :=
  fold_left (fun acc k => add_path (firstn k p) acc) (seq 1 (length p)) fs.

(* ------------------------------------------------------------------ *)
(** *** [runtime_scripts::ensure_scripts] and [start_recording] *)

(** Outcome of [fs::write] (create or truncate, then [write_all]): it
    succeeds, fails before the file is created or truncated, or fails once
    the file is created or truncated and the first [k] bytes of the
    contents (fewer than all of them) are written. *)
Inductive WriteOutcome :=
| WriteOk
| CreateFailed
| WriteFailedAfter (k : nat).

Definition write_succeeded (o : WriteOutcome) : bool :=
  match o with WriteOk => true | _ => false end.

(** Outcomes of the operating-system calls [start_recording] makes. *)
Record StartEnv := {
  scripts_dir_ok : bool;                (* fs::create_dir_all(&scripts_dir) *)
  bootstrap_write : WriteOutcome;       (* write_if_changed(&bootstrap_script, ..) *)
  worker_write : WriteOutcome;          (* write_if_changed(&worker_script, ..) *)
  current_exe : option path;            (* std::env::current_exe() *)
  audio_device_var : option rstring;    (* WHISPERBAR_AUDIO_DEVICE *)
  mic_device_var : option rstring;      (* WHISPERBAR_MIC_DEVICE *)
  spawn_result : option nat;            (* Command::spawn(): the child's pid *)
  floating_window_ok : bool;            (* ui::ensure_floating_window *)
  floating_window_error : rstring       (* the text of its tauri::Error *)
}.

(** [ensure_scripts] succeeds: the directory is created and both scripts
    are written (or already hold their contents). *)
Definition scripts_ok (env : StartEnv) : bool :=
  scripts_dir_ok env && write_succeeded (bootstrap_write env)
  && write_succeeded (worker_write env).

(** [write_if_changed]: [outcome] is that of the [fs::write] when the file
    does not already hold the script ([WriteOk] also when no write is
    needed); the file system records which paths exist. *)
Definition write_if_changed (outcome : WriteOutcome) (p : path) : M unit :=
  match outcome with
  | WriteOk => write_fs (add_path p) ;;; perform (WriteScript p)
  | CreateFailed => throw (lit "failed writing " ++ display p)
  | WriteFailedAfter _ =>
      write_fs (add_path p) ;;; throw (lit "failed writing " ++ display p)
  end.

(** [runtime_scripts::ensure_scripts].  A failing [create_dir_all] is
    taken to create no directory. *)
Definition ensure_scripts (env : StartEnv) : M unit :=
  s <- read_state ;;
  if negb (scripts_dir_ok env) then
    throw (lit "failed creating scripts directory " ++ display (scripts_dir s))
  else
    write_fs (create_dir_all (scripts_dir s)) ;;;
    perform (CreateDirAll (scripts_dir s)) ;;;
    write_if_changed (bootstrap_write env) (bootstrap_script s) ;;;
    write_if_changed (worker_write env) (worker_script s) ;;;
    ret tt.

(** The file system as [ensure_scripts] leaves it when it succeeds. *)
Definition fs_after_scripts (s : StateInner) (fs : list path) : list path :=
  add_path (worker_script s) (add_path (bootstrap_script s)
    (create_dir_all (scripts_dir s) fs)).

Definition non_blank (s : rstring) : bool := negb (is_empty (trim s)).

(** The arguments given to [Command::new(&venv_python)]. *)
Definition worker_args (env : StartEnv) (worker_script : path) (language : rstring)
    (model_path : path) (selected_mic_device : option rstring) : list rstring :=
  [display worker_script; lit "--language"; language;
   lit "--model-path"; display model_path]
  ++ match current_exe env with
     | Some exe => [lit "--sck-helper-path"; display exe]
     | None => []
     end
  ++ match audio_device_var env with
     | Some d => if non_blank d then [lit "--audio-device"; d] else []
     | None => []
     end
  ++ match selected_mic_device with
     | Some m => if non_blank m then [lit "--mic-device"; m] else []
     | None =>
         match mic_device_var env with
         | Some m => if non_blank m then [lit "--mic-device"; m] else []
         | None => []
         end
     end.

Definition start_recording (env : StartEnv) : M unit :=
  ensure_scripts env ;;;
  guard <- read_state ;;
  if AppStatus_eqb (status guard) Recording then
    throw (lit "recording is already active")
  else if negb (AppStatus_eqb (status guard) Ready || AppStatus_eqb (status guard) Idle) then
    throw (lit "dependencies are not ready yet. wait for installation to finish")
  else
    let worker_script := worker_script guard in
    let selected_mic_device := selected_mic_device guard in
    fs0 <- read_fs ;;
    if negb (path_exists fs0 (venv_python guard)) then
      throw (lit "Python environment is missing. Retry dependency installation")
    else
      guard <- read_state ;;
      let venv_python := venv_python guard in
      let model_path := model_path guard in
      let language := language guard in
      fs1 <- read_fs ;;
      if negb (model_ready fs1 model_path) then
        throw (lit "Selected model is not installed. Click Install Model first.")
      else
        match spawn_result env with
        | None => throw (lit "failed starting worker with " ++ display venv_python)
        | Some pid =>
            perform (SpawnWorker venv_python
                       (worker_args env worker_script language model_path
                          selected_mic_device)) ;;;
            perform (SpawnReader (lit "stdout")) ;;;
            perform (SpawnReader (lit "stderr")) ;;;
            update_state (fun inner =>
              set_transcript []
                (set_last_saved_path None
                   (set_error_message None
                      (set_status_message (lit "Recording")
                         (set_status Recording
                            (set_worker
                               (Some {| child := pid; stdin := Some pid;
                                        stdout_task := Some 1%nat;
                                        stderr_task := Some 2%nat |}) inner)))))) ;;;
            perform HideTrayWindow ;;;
            (if floating_window_ok env then perform EnsureFloatingWindow
             else throw (floating_window_error env)) ;;;
            emit_state ;;;
            ret tt
        end.

(* ------------------------------------------------------------------ *)
(** *** [handle_worker_event] *)

(** [struct WorkerEvent], deserialized from one stdout line. *)
Record WorkerEvent := {
  event_type : rstring;        (* #[serde(rename = "type")] *)
  text : option rstring;
  message : option rstring
}.

(** The [match event.event_type.as_str()] of [handle_worker_event], on an
    event that deserialized. *)
Definition handle_parsed_event (event : WorkerEvent) : M unit :=
  if rstring_eqb (event_type event) (lit "status") then
    match message event with
    | Some message =>
        update_state (fun inner =>
          if AppStatus_eqb (status inner) Recording
          then set_status_message message inner else inner)
    | None => ret tt
    end
  else if rstring_eqb (event_type event) (lit "partial") then
    match text event with
    | Some text =>
        if is_empty (trim text) then ret tt
        else
          update_state (fun inner =>
            let t := if negb (is_empty (transcript inner))
                     then transcript inner ++ [10] else transcript inner in
            let inner := set_transcript (t ++ trim text) inner in
            if AppStatus_eqb (status inner) Recording
            then set_status_message (lit "Recording") inner else inner)
    | None => ret tt
    end
  else if rstring_eqb (event_type event) (lit "final") then
    match text event with
    | Some text =>
        update_state (fun inner =>
          if negb (is_empty (trim text)) && (str_len (transcript inner) <? str_len text)
          then set_transcript text inner else inner)
    | None => ret tt
    end
  else if rstring_eqb (event_type event) (lit "error") then
    let message := match message event with
                   | Some m => m
                   | None => lit "Worker reported an unknown error"
                   end in
    update_state (fun inner =>
      set_worker None
        (set_error_message (Some message)
           (set_status_message (lit "Recording error")
              (set_status Error inner)))) ;;;
    perform CloseFloatingWindow ;;;
    perform ShowTrayWindow
  else ret tt.

Section Decoder.

(** [serde_json::from_str::<WorkerEvent>]: [None] when the line is not a
    JSON object with a string field ["type"] (and well-typed optional
    ["text"] and ["message"] fields). *)
Variable parse_worker_event : rstring -> option WorkerEvent.

Definition handle_worker_event (line : rstring) : M unit :=
  match parse_worker_event line with
  | None => ret tt
  | Some event => handle_parsed_event event
  end.

End Decoder.

(* ------------------------------------------------------------------ *)
(** *** [stop_recording] *)

(** Outcomes of the operating-system calls [stop_recording] makes, and the
    session updates the two reader tasks make while they are drained. *)
Record StopEnv := {
  stop_write_ok : bool;                 (* stdin.write_all(b"stop\n") *)
  exited_in_grace : bool;               (* child.wait() within 15 s *)
  kill_ok : bool;                       (* child.kill() *)
  elapsed_secs : Z;                     (* start_wait.elapsed().as_secs() *)
  drain : StateInner -> StateInner;     (* reader tasks' updates before the read *)
  save_result : result rstring          (* transcript_file::save_markdown *)
}.

(** Decimal rendering of a non-negative integer ([format!("{}")]). *)
Fixpoint decimal_aux (fuel : nat) (n : Z) (acc : rstring) : rstring :=
  match fuel with
  | O => acc
  | S fuel' =>
      let acc := (48 + n mod 10) :: acc in
      if n <? 10 then acc else decimal_aux fuel' (n / 10) acc
  end.

Definition decimal (n : Z) : rstring := decimal_aux 40 n [].

Definition no_speech_message : rstring :=
  lit "No speech was captured. Check microphone permission and audio input device.".

(** First block: check the status and take the worker out of the session. *)
Definition take_worker : M WorkerProcess :=
  guard <- read_state ;;
  if negb (AppStatus_eqb (status guard) Recording) then
    throw (lit "recording is not active")
  else
    write_state (fun g => set_worker None
                            (set_status_message (lit "Stopping recording") g)) ;;;
    match worker guard with
    | None => throw (lit "missing worker process")
    | Some worker => ret worker
    end.

(** Signal the worker, wait up to 15 s, kill it if needed, drain readers. *)
Definition shutdown_worker (env : StopEnv) (worker : WorkerProcess) : M unit :=
  emit_state ;;;
  match stdin worker with
  | Some _ =>
      perform (WriteStdin (lit "stop" ++ [10])) ;;;
      if stop_write_ok env then ret tt
      else throw (lit "failed signaling worker to stop")
  | None => ret tt
  end ;;;
  (if exited_in_grace env then ret tt
   else
     perform (KillWorker (child worker)) ;;;
     if kill_ok env then
       update_state (set_status_message
         (lit "Worker forced to stop after " ++ decimal (elapsed_secs env) ++ lit "s"))
     else throw (lit "failed killing worker")) ;;;
  write_state (drain env).

(** Read the transcript and finish: error on a blank one, else save it. *)
Definition finish_stop (env : StopEnv) : M rstring :=
  guard <- read_state ;;
  let transcript := transcript guard in
  if is_empty (trim transcript) then
    update_state (fun inner =>
      set_worker None
        (set_error_message (Some no_speech_message)
           (set_status_message (lit "No transcript captured")
              (set_status Error inner)))) ;;;
    perform CloseFloatingWindow ;;;
    perform ShowTrayWindow ;;;
    throw no_speech_message
  else
    perform (SaveMarkdown transcript) ;;;
    match save_result env with
    | Err e => throw e
    | Ok file_path_str =>
        update_state (fun inner =>
          set_worker None
            (set_install_progress (Some 1%Q)
               (set_error_message None
                  (set_last_saved_path (Some file_path_str)
                     (set_status_message (lit "Ready")
                        (set_status Ready inner)))))) ;;;
        perform CloseFloatingWindow ;;;
        perform ShowTrayWindow ;;;
        ret file_path_str
    end.

Definition stop_recording (env : StopEnv) : M rstring :=
  worker <- take_worker ;;
  shutdown_worker env worker ;;;
  finish_stop env.

(** The session as [finish_stop] reads it, when [take_worker] and
    [shutdown_worker] succeed from session [s]. *)
Definition state_at_check (env : StopEnv) (s : StateInner) : StateInner :=
  let s1 := set_worker None (set_status_message (lit "Stopping recording") s) in
  drain env
    (if exited_in_grace env then s1
     else set_status_message
            (lit "Worker forced to stop after " ++ decimal (elapsed_secs env) ++ lit "s") s1).

(** Effects that create a process or a task. *)
Definition is_spawn (e : effect) : bool :=
  match e with
  | SpawnWorker _ _ | SpawnReader _ => true
  | _ => false
  end.

End Worker.

(* ================================================================== *)
(** ** Sample sessions *)

Module Samples.

Import Session Worker.

Definition sample_state (st : AppStatus) (tr : rstring) (wk : option WorkerProcess)
    : StateInner :=
  {| status := st; status_message := lit "Ready"; language := lit "en";
     selected_model_id := lit "base"; selected_mic_device := None;
     transcript := tr; last_saved_path := None; install_progress := None;
     error_message := None; app_data_dir := [lit "data"];
     scripts_dir := [lit "data"; lit "scripts"];
     bootstrap_script := [lit "data"; lit "scripts"; lit "bootstrap.sh"];
     worker_script := [lit "data"; lit "scripts"; lit "worker.py"];
     venv_python := [lit "data"; lit "venv"; lit "python"];
     model_path := [lit "data"; lit "models"; lit "base"];
     worker := wk |}.

Definition sample_world (st : AppStatus) (tr : rstring) (wk : option WorkerProcess)
    (fs : list path) : World :=
  {| state := sample_state st tr wk; fs := fs; log := [] |}.

Definition sample_worker : WorkerProcess :=
  {| child := 7; stdin := Some 7%nat; stdout_task := Some 1%nat;
     stderr_task := Some 2%nat |}.

Definition sample_stop_env (write_ok exited : bool) (save : result rstring)
    : StopEnv :=
  {| stop_write_ok := write_ok; exited_in_grace := exited; kill_ok := true;
     elapsed_secs := 15; drain := fun s => s; save_result := save |}.

Definition sample_start_env : StartEnv :=
  {| scripts_dir_ok := true; bootstrap_write := WriteOk; worker_write := WriteOk;
     current_exe := None; audio_device_var := None;
     mic_device_var := None; spawn_result := Some 7%nat;
     floating_window_ok := true; floating_window_error := [] |}.

(** The same, with a floating window that cannot be created. *)
Definition sample_window_failure_env : StartEnv :=
  {| scripts_dir_ok := true; bootstrap_write := WriteOk; worker_write := WriteOk;
     current_exe := None; audio_device_var := None;
     mic_device_var := None; spawn_result := Some 7%nat;
     floating_window_ok := false; floating_window_error := lit "window unavailable" |}.

(** A file system with the interpreter and an installed model. *)
Definition installed_fs : list path :=
  [[lit "data"]; [lit "data"; lit "venv"]; [lit "data"; lit "venv"; lit "python"];
   [lit "data"; lit "models"]; [lit "data"; lit "models"; lit "base"];
   [lit "data"; lit "models"; lit "base"; lit "config.json"];
   [lit "data"; lit "models"; lit "base"; lit "weights.npz"]].

End Samples.

(* ================================================================== *)
(** ** The capture callback ([sck_audio_helper.rs]) *)

Module Capture.

Import F32 Codec.
Open Scope Q_scope.






Section Callback.

Variable fl : Q -> Q.
Variable f32_from_le_bytes : Z * Z * Z * Z -> Q.


End Callback.

End Capture.

(* ================================================================== *)
(** ** The model catalogue ([models.rs]) *)

Module Models.

Import Session Worker.

Record ModelSpec := {
  id : rstring;
  name : rstring;
  size_label : rstring;
  folder : rstring
}.

Definition MODEL_SPECS : list ModelSpec :=
  [{| id := lit "large-v3-turbo"; name := lit "Large v3 Turbo";
      size_label := lit "0.81 GB"; folder := lit "whisper-large-v3-turbo" |};
   {| id := lit "large-v3"; name := lit "Large v3";
      size_label := lit "3.10 GB"; folder := lit "whisper-large-v3" |}].

Definition default_model_id : rstring := lit "large-v3-turbo".

Definition find_model (model_id : rstring) : option ModelSpec :=
  find (fun model => rstring_eqb (id model) model_id) MODEL_SPECS.

Definition model_path (app_data_dir : path) (model_id : rstring) : option path :=
  match find_model model_id with
  | None => None
  | Some model => Some (join app_data_dir "models" ++ [folder model])
  end.

End Models.

(* ================================================================== *)
(** ** Microphone choice ([audio.rs]) *)

Module Audio.

Import Session Worker.

Record AudioDeviceOption := {
  id : rstring;
  name : rstring;
  is_microphone_like : bool
}.

Definition MICROPHONE_KEYWORDS : list rstring :=
  map lit ["microphone"; "microfone"; "mic"; "built-in"; "interno"; "headset";
           "airpods"]%string.
Definition PREFERRED_BUILTIN_MIC_KEYWORDS : list rstring :=
  map lit ["macbook"; "built-in"; "internal"]%string.
Definition DEPRIORITIZED_MOBILE_MIC_KEYWORDS : list rstring :=
  map lit ["iphone"; "continuity"; "desk view"]%string.
Definition APP_VIRTUAL_AUDIO_KEYWORDS : list rstring :=
  map lit ["teams audio"; "zoomaudio"; "discord"; "slack"]%string.

(** [str::contains] with a string pattern. *)
Fixpoint contains (input term : rstring) : bool :=
  starts_with input term
  || match input with [] => false | _ :: rest => contains rest term end.

Definition contains_any (input : rstring) (terms : list rstring) : bool :=
  existsb (fun term => contains input term) terms.

(** [Iterator::max_by_key]: the last of the elements with the greatest
    key ([cmp::max_by] keeps its second argument on ties). *)
Definition max_by_key {A} (key : A -> Z) (l : list A) : option A :=
  match l with
  | [] => None
  | first :: rest =>
      Some (fold_left (fun best x => if Z.leb (key best) (key x) then x else best)
              rest first)
  end.

Section Lowercase.

(** [str::to_lowercase] (full Unicode case mapping). *)
Variable to_lowercase : rstring -> rstring.

Definition score_mic (name : rstring) : Z :=
  let lowered := to_lowercase name in
  let score := 0 in
  let score := if contains_any lowered MICROPHONE_KEYWORDS then score + 160 else score in
  let score := if contains_any lowered PREFERRED_BUILTIN_MIC_KEYWORDS
               then score + 35 else score in
  let score := if contains_any lowered DEPRIORITIZED_MOBILE_MIC_KEYWORDS
               then score - 30 else score in
  let score := if contains_any lowered APP_VIRTUAL_AUDIO_KEYWORDS
               then score - 130 else score in
  score.

Definition choose_default_mic (devices : list AudioDeviceOption) : option rstring :=
  match max_by_key (fun device => score_mic (name device)) devices with
  | Some device => Some (id device)
  | None => None
  end.

End Lowercase.

End Audio.

(* ================================================================== *)
(** ** Saving transcripts ([transcript_file.rs]) *)

Module TranscriptFile.

Import Session Worker.

(** [Local::now()], field by field. *)
Record DateTime := {
  year : Z;
  month : Z;
  day : Z;
  hour : Z;
  minute : Z
}.

(** [width] zero-padded decimal digits of [n]. *)
Fixpoint digits (width : nat) (n : Z) : rstring :=
  match width with
  | O => []
  | S w => digits w (n / 10) ++ [48 + n mod 10]
  end.

(** [format("%Y-%m-%d-%H-%M")], for years 0 to 9999. *)
Definition format_timestamp (t : DateTime) : rstring :=
  digits 4 (year t) ++ lit "-" ++ digits 2 (month t) ++ lit "-" ++ digits 2 (day t)
  ++ lit "-" ++ digits 2 (hour t) ++ lit "-" ++ digits 2 (minute t).

(** The range in which every field fills its [%Y], [%m], [%d], [%H] or [%M]
    field without overflow. *)
Definition in_format_range (t : DateTime) : Prop :=
  (0 <= year t < 10000 /\ 0 <= month t < 100 /\ 0 <= day t < 100 /\
   0 <= hour t < 100 /\ 0 <= minute t < 100)%Z.

Definition sample_time : DateTime :=
  {| year := 2026; month := 10; day := 15; hour := 9; minute := 30 |}.

(** Files and their contents. *)
Definition Files := list (path * rstring).

Definition read_file (p : path) (files : Files) : option rstring :=
  match find (fun e => path_eqb (fst e) p) files with
  | Some (_, content) => Some content
  | None => None
  end.

(** [fs::write]: create or truncate. *)
Definition write_file (p : path) (content : rstring) (files : Files) : Files :=
  (p, content) :: filter (fun e => negb (path_eqb (fst e) p)) files.

(** [save_markdown]: [documents_dir] is [dirs::document_dir()], [create_ok]
    the outcome of [fs::create_dir_all] and [write] that of [fs::write].
    Directories are not modelled in [Files]. *)
Definition save_markdown (documents_dir : option path) (create_ok : bool) (write : WriteOutcome)
    (now : DateTime) (transcript : rstring) (files : Files) : result path * Files :=
  match documents_dir with
  | None => (Err (lit "unable to locate Documents directory"), files)
  | Some documents_dir =>
      let output_dir := join documents_dir "WhisperBar" in
      if negb create_ok then (Err (lit "failed creating " ++ display output_dir), files)
      else
        let file_path :=
          output_dir ++ [lit "Transcript-" ++ format_timestamp now ++ lit ".md"] in
        match write with
        | WriteOk => (Ok file_path, write_file file_path transcript files)
        | CreateFailed => (Err (lit "failed writing " ++ display file_path), files)
        | WriteFailedAfter k =>
            (Err (lit "failed writing " ++ display file_path),
             write_file file_path (firstn k transcript) files)
        end
  end.

End TranscriptFile.

(* ================================================================== *)
(** ** Settings and the commands of [lib.rs] ([app_state.rs], [lib.rs]) *)

Module Commands.

Import Session Worker.

Definition with_language (v : rstring) (s : StateInner) : StateInner :=
  {| status := status s; status_message := status_message s; language := v;
     selected_model_id := selected_model_id s;
     selected_mic_device := selected_mic_device s;
     transcript := transcript s; last_saved_path := last_saved_path s;
     install_progress := install_progress s;
     error_message := error_message s; app_data_dir := app_data_dir s;
     scripts_dir := scripts_dir s; bootstrap_script := bootstrap_script s;
     worker_script := worker_script s; venv_python := venv_python s;
     model_path := model_path s; worker := worker s |}.
Definition with_selected_model_id (v : rstring) (s : StateInner) : StateInner :=
  {| status := status s; status_message := status_message s;
     language := language s; selected_model_id := v;
     selected_mic_device := selected_mic_device s;
     transcript := transcript s; last_saved_path := last_saved_path s;
     install_progress := install_progress s;
     error_message := error_message s; app_data_dir := app_data_dir s;
     scripts_dir := scripts_dir s; bootstrap_script := bootstrap_script s;
     worker_script := worker_script s; venv_python := venv_python s;
     model_path := model_path s; worker := worker s |}.
Definition with_model_path (v : path) (s : StateInner) : StateInner :=
  {| status := status s; status_message := status_message s;
     language := language s; selected_model_id := selected_model_id s;
     selected_mic_device := selected_mic_device s;
     transcript := transcript s; last_saved_path := last_saved_path s;
     install_progress := install_progress s;
     error_message := error_message s; app_data_dir := app_data_dir s;
     scripts_dir := scripts_dir s; bootstrap_script := bootstrap_script s;
     worker_script := worker_script s; venv_python := venv_python s;
     model_path := v; worker := worker s |}.
Definition with_selected_mic_device (v : option rstring) (s : StateInner) : StateInner :=
  {| status := status s; status_message := status_message s;
     language := language s; selected_model_id := selected_model_id s;
     selected_mic_device := v;
     transcript := transcript s; last_saved_path := last_saved_path s;
     install_progress := install_progress s;
     error_message := error_message s; app_data_dir := app_data_dir s;
     scripts_dir := scripts_dir s; bootstrap_script := bootstrap_script s;
     worker_script := worker_script s; venv_python := venv_python s;
     model_path := model_path s; worker := worker s |}.

(** [PersistedSettings] *)
Record PersistedSettings := {
  settings_language : option rstring;
  settings_selected_model_id : option rstring;
  settings_selected_mic_device : option rstring
}.

(** [is_model_installed] of [app_state.rs]. *)
Definition is_model_installed (fs : list path) (model_path : path) : bool :=
  if negb (path_exists fs model_path) then false
  else
    let config_exists := path_exists fs (join model_path "config.json") in
    let has_weights :=
      match read_dir fs model_path with
      | None => false
      | Some names =>
          existsb (fun name => starts_with name (lit "weights.")
                               || starts_with name (lit "model")) names
      end in
    config_exists && has_weights.

Definition settings_path (app_data_dir : path) : path := join app_data_dir "settings.json".

(** The session and the contents of the settings files, by path.  A
    settings file holds the [PersistedSettings] it was written from
    ([serde_json::to_string_pretty] read back by [serde_json::from_str]). *)
Record AppWorld := {
  world : World;
  settings_files : list (path * PersistedSettings)
}.

Definition AM (A : Type) := AppWorld -> result A * AppWorld.

Definition retA {A} (a : A) : AM A := fun aw => (Ok a, aw).

Definition bindA {A B} (m : AM A) (k : A -> AM B) : AM B :=
  fun aw => match m aw with
            | (Ok a, aw') => k a aw'
            | (Err e, aw') => (Err e, aw')
            end.

Definition throwA {A} (msg : rstring) : AM A := fun aw => (Err msg, aw).

(** A step on the session alone. *)
Definition lift {A} (m : M A) : AM A :=
  fun aw => let (r, w') := m (world aw) in
            (r, {| world := w'; settings_files := settings_files aw |}).

(** [let _ = ...;]: the result is dropped. *)
Definition ignore {A} (m : AM A) : AM unit :=
  fun aw => let (_, aw') := m aw in (Ok tt, aw').

Definition read_stateA : AM StateInner := lift read_state.

Definition lookup_settings (files : list (path * PersistedSettings)) (p : path)
    : option PersistedSettings :=
  match find (fun e => path_eqb (fst e) p) files with
  | Some (_, settings) => Some settings
  | None => None
  end.

(** [load_settings]: [None] when the file cannot be read. *)
Definition load_settings (files : list (path * PersistedSettings)) (app_data_dir : path)
    : option PersistedSettings :=
  lookup_settings files (settings_path app_data_dir).

(** Outcomes of [fs::create_dir_all] and [fs::write] on the settings file,
    and the message of the [io::Error] either returns. *)
Record SettingsEnv := {
  create_dir_ok : bool;
  settings_write : WriteOutcome;
  io_error : rstring
}.

Definition write_ok (env : SettingsEnv) : bool := write_succeeded (settings_write env).

(** [save_settings_to_dir].  A failing [create_dir_all] is taken to create
    no directory.  A write that fails after the file is truncated leaves a
    prefix of the JSON document, which [load_settings] cannot parse: the
    file then holds no settings. *)
Definition save_settings_to_dir (env : SettingsEnv) (app_data_dir : path)
    (settings : PersistedSettings) : AM unit :=
  fun aw =>
    let w := world aw in
    if negb (create_dir_ok env) then (Err (io_error env), aw)
    else
      let fs1 := create_dir_all app_data_dir (fs w) in
      let p := settings_path app_data_dir in
      let others := filter (fun e => negb (path_eqb (fst e) p)) (settings_files aw) in
      match settings_write env with
      | CreateFailed =>
          (Err (io_error env),
           {| world := {| state := state w; fs := fs1; log := log w |};
              settings_files := settings_files aw |})
      | WriteFailedAfter _ =>
          (Err (io_error env),
           {| world := {| state := state w; fs := add_path p fs1; log := log w |};
              settings_files := others |})
      | WriteOk =>
          (Ok tt,
           {| world := {| state := state w; fs := add_path p fs1; log := log w |};
              settings_files := (p, settings) :: others |})
      end.

Definition save_settings (env : SettingsEnv) (inner : StateInner) : AM unit :=
  save_settings_to_dir env (app_data_dir inner)
    {| settings_language := Some (language inner);
       settings_selected_model_id := Some (selected_model_id inner);
       settings_selected_mic_device := selected_mic_device inner |}.

(** [model_path(..).unwrap_or_else(|| app_data_dir.join("models").join(..))] *)
Definition model_path_or_default (app_data_dir : path) (model_id : rstring) : path :=
  match Models.model_path app_data_dir model_id with
  | Some p => p
  | None => join (join app_data_dir "models") "whisper-large-v3-turbo"
  end.

(** [StateInner::new]: the file system and the settings files are the
    ones found at start. *)
Definition new_state (app_data_dir0 : path) (fs0 : list path)
    (files : list (path * PersistedSettings)) : StateInner :=
  let scripts_dir0 := join app_data_dir0 "python" in
  let venv_python0 := join (join (join app_data_dir0 "python-env") "bin") "python" in
  let model_id0 := Models.default_model_id in
  let s0 :=
    {| status := Ready; status_message := lit "Ready"; language := lit "en";
       selected_model_id := model_id0; selected_mic_device := None;
       transcript := []; last_saved_path := None; install_progress := None;
       error_message := None; app_data_dir := app_data_dir0;
       scripts_dir := scripts_dir0;
       bootstrap_script := join scripts_dir0 "bootstrap.py";
       worker_script := join scripts_dir0 "worker.py";
       venv_python := venv_python0;
       model_path := model_path_or_default app_data_dir0 model_id0;
       worker := None |} in
  let s1 :=
    match load_settings files (app_data_dir s0) with
    | None => s0
    | Some settings =>
        let s := match settings_language settings with
                 | Some l =>
                     if rstring_eqb l (lit "en") || rstring_eqb l (lit "pt-BR")
                     then with_language l s0 else s0
                 | None => s0
                 end in
        let s := match settings_selected_model_id settings with
                 | Some model_id =>
                     match Models.find_model model_id with
                     | Some _ =>
                         with_model_path (model_path_or_default (app_data_dir s) model_id)
                           (with_selected_model_id model_id s)
                     | None => s
                     end
                 | None => s
                 end in
        with_selected_mic_device (settings_selected_mic_device settings) s
    end in
  if negb (is_model_installed fs0 (model_path s1))
  then set_status_message
         (lit "Model not installed. Select a model and click Install Model.") s1
  else s1.

(** The command [set_language]. *)
Definition set_language (env : SettingsEnv) (l : rstring) : AM unit :=
  if negb (rstring_eqb l (lit "en")) && negb (rstring_eqb l (lit "pt-BR")) then
    throwA (lit "unsupported language")
  else
    bindA (lift (update_state (with_language l))) (fun _ =>
    bindA read_stateA (fun guard =>
    bindA (ignore (save_settings env guard)) (fun _ =>
    retA tt))).

(** The command [set_audio_inputs]. *)
Definition set_audio_inputs (env : SettingsEnv) (mic_device : option rstring) : AM unit :=
  bindA read_stateA (fun guard =>
  if AppStatus_eqb (status guard) Recording then
    throwA (lit "cannot change audio input while recording")
  else
    bindA (lift (update_state (with_selected_mic_device
             (match mic_device with
              | Some value => if non_blank value then Some value else None
              | None => None
              end)))) (fun _ =>
    bindA read_stateA (fun guard =>
    bindA (ignore (save_settings env guard)) (fun _ =>
    retA tt)))).

(** The command [set_model]. *)
Definition set_model (env : SettingsEnv) (model_id : rstring) : AM unit :=
  match Models.find_model model_id with
  | None => throwA (lit "unsupported model id: " ++ model_id)
  | Some _ =>
      bindA read_stateA (fun guard =>
      if AppStatus_eqb (status guard) Recording then
        throwA (lit "cannot change model while recording")
      else
        bindA read_stateA (fun guard =>
        match Models.model_path (app_data_dir guard) model_id with
        | None => throwA (lit "unsupported model id: " ++ model_id)
        | Some mp =>
            bindA (lift (update_state (fun inner =>
              set_status_message (lit "Model selected. Click Install Model if missing.")
                (set_status Ready
                   (set_error_message None
                      (with_model_path mp (with_selected_model_id model_id inner)))))))
              (fun _ =>
            bindA read_stateA (fun guard =>
            bindA (ignore (save_settings env guard)) (fun _ =>
            retA tt)))
        end))
  end.

(** The command [clear_error]. *)
Definition clear_error : AM unit :=
  bindA (lift (update_state (fun inner =>
    let inner := set_error_message None inner in
    if AppStatus_eqb (status inner) Error then
      if match install_progress inner with
         | Some p => Qeq_bool p 1
         | None => false
         end
      then set_status_message (lit "Ready") (set_status Ready inner)
      else set_status_message (lit "Ready") (set_status Ready inner)
    else inner))) (fun _ =>
  retA tt).

(** [refresh_audio_devices_inner]: [devices] is the outcome of
    [audio::list_audio_devices]. *)
Definition refresh_audio_devices_inner (to_lowercase : rstring -> rstring)
    (env : SettingsEnv) (devices : result (list Audio.AudioDeviceOption))
    : AM (list Audio.AudioDeviceOption) :=
  match devices with
  | Err e => throwA e
  | Ok devices =>
      bindA (lift (update_state (fun inner =>
        let mic_valid :=
          match selected_mic_device inner with
          | Some mic => existsb (fun device => rstring_eqb (Audio.id device) mic) devices
          | None => false
          end in
        if negb mic_valid
        then with_selected_mic_device (Audio.choose_default_mic to_lowercase devices) inner
        else inner))) (fun _ =>
      bindA read_stateA (fun guard =>
      bindA (ignore (save_settings env guard)) (fun _ =>
      retA devices)))
  end.

(** Settings that can be written. *)
Definition settings_ok_env : SettingsEnv :=
  {| create_dir_ok := true; settings_write := WriteOk; io_error := [] |}.

(** [set_error] of [lib.rs].  It spawns a task that runs [update_state];
    the update is applied here right after the failure that triggers it. *)
Definition set_error (message : rstring) : M unit :=
  update_state (fun inner =>
    set_install_progress None
      (set_error_message (Some message)
         (set_status_message (lit "Error") (set_status Error inner)))).

(** The command [stop_recording] of [lib.rs].  The message of the [anyhow]
    error ([error.to_string()]) is the one [Worker.stop_recording] fails
    with. *)
Definition stop_recording (env : StopEnv) : M rstring :=
  fun w =>
    match Worker.stop_recording env w with
    | (Ok path, w') => (Ok path, w')
    | (Err error, w') =>
        let message := error in
        let (_, w'') := set_error message w' in
        (Err message, w'')
    end.

(** A session as [StateInner::new] leaves it, switched to Portuguese and to
    the large model. *)
Definition sample_app_world : AppWorld :=
  {| world := {| state := with_language (lit "pt-BR")
                            (with_model_path [lit "data"; lit "models"; lit "whisper-large-v3"]
                               (with_selected_model_id (lit "large-v3")
                                  (new_state [lit "data"] [] [])));
                 fs := []; log := [] |};
     settings_files := [] |}.

(** The session keeps [model_path] at the folder of [selected_model_id],
    a model of the catalogue. *)
Definition model_consistent (s : StateInner) : Prop :=
  exists m, Models.find_model (selected_model_id s) = Some m /\
            model_path s = join (app_data_dir s) "models" ++ [Models.folder m].

End Commands.

(* ================================================================== *)
(** ** Sequences of worker events *)

Module Events.

Import Session Worker.

(** The lines of [ls] separated by ["\n"]. *)
Fixpoint join_lines (ls : list rstring) : rstring :=
  match ls with
  | [] => []
  | [l] => l
  | l :: rest => l ++ [10] ++ join_lines rest
  end.

(** Handle the events one after the other, as the stdout task does. *)
Fixpoint handle_events (events : list WorkerEvent) : M unit :=
  match events with
  | [] => ret tt
  | event :: rest => handle_parsed_event event ;;; handle_events rest
  end.

Definition partial_event (t : rstring) : WorkerEvent :=
  {| event_type := lit "partial"; text := Some t; message := None |}.

End Events.

(* ================================================================== *)
(** ** Sample and byte ranges *)

Module Ranges.

Open Scope Q_scope.

(** A sample in [[-1, 1]]. *)
Definition unit_range (x : Q) : Prop := -1 <= x <= 1.

(** A [u8]. *)
Definition byte_range (b : Z) : Prop := (0 <= b <= 255)%Z.

End Ranges.


(* ================================================================== *)
(** * Properties of the codec *)

Module CodecFacts.

Import F32 Codec.
Open Scope Q_scope.

#[export] Instance exact_rounding : Rounding exact.
Proof.
  unfold exact; split; intros; try assumption; try reflexivity.
  setoid_replace (x - x) with 0 by ring.
  pose proof (Qabs_nonneg x).
  assert (0 <= Qabs x * (1 # 16777216)) by (apply Qmult_le_0_compat; [assumption|discriminate]).
  assert (0 <= 1 # 2 ^ 150) by discriminate.
  simpl Qabs. lra.
Qed.

Lemma Qle_bool_false (x y : Q) : y < x -> Qle_bool x y = false.
Proof.
  intros H. apply not_true_is_false. rewrite Qle_bool_iff. lra.
Qed.

Lemma Qlt_bool_true (x y : Q) : x < y -> Qlt_bool x y = true.
Proof. intros H. unfold Qlt_bool. now rewrite Qle_bool_false. Qed.

Lemma Qlt_bool_false (x y : Q) : y <= x -> Qlt_bool x y = false.
Proof.
  intros H. unfold Qlt_bool. apply Qle_bool_iff in H. now rewrite H.
Qed.

(** [fl] is exact on [OUTPUT_SAMPLE_RATE]. *)
Lemma fl_output_rate (fl : Q -> Q) `{Rounding fl} :
  fl OUTPUT_SAMPLE_RATE == OUTPUT_SAMPLE_RATE.
Proof. apply (fl_int 16000). lia. Qed.

(** C4. For every input sequence and every source rate (an [f32] value,
    i.e. fixed by the rounding) whose distance from 16000 Hz is below 1 Hz,
    [resample_to_output_rate] returns the input unchanged. *)
Theorem resample_identity_near_output_rate (fl : Q -> Q) `{Rounding fl}
    (input : list Q) (source_rate : Q) :
  fl source_rate == source_rate ->
  Qabs (source_rate - OUTPUT_SAMPLE_RATE) < 1 ->
  resample_to_output_rate fl input source_rate = input.
Proof.
  intros Hrate Hdist.
  unfold resample_to_output_rate.
  destruct input as [|x xs]; [reflexivity|].
  apply Qabs_Qlt_condition in Hdist. unfold OUTPUT_SAMPLE_RATE in *.
  rewrite (Qle_bool_false source_rate 0) by lra. simpl.
  assert (E : fl (source_rate - OUTPUT_SAMPLE_RATE) == source_rate - OUTPUT_SAMPLE_RATE).
  { apply fl_sterbenz; [assumption | apply fl_output_rate; assumption |].
    unfold OUTPUT_SAMPLE_RATE. lra. }
  rewrite Qlt_bool_true; [reflexivity|].
  rewrite E. apply Qabs_Qlt_condition. unfold OUTPUT_SAMPLE_RATE. lra.
Qed.

(** The loop of [resample_to_output_rate] pushes the interpolated samples
    of consecutive indices until [fuel] runs out or the [break] fires. *)
Lemma resample_loop_spec (fl : Q -> Q) (input : list Q) (ratio : Q) :
  forall fuel index, exists k,
    (k <= fuel)%nat /\
    resample_loop fl input ratio fuel index
      = map (interpolate fl input ratio) (seq index k) /\
    (forall j, (j < k)%nat -> (base_index_at fl ratio (index + j) < length input)%nat) /\
    ((k < fuel)%nat -> (length input <= base_index_at fl ratio (index + k))%nat).
Proof.
  induction fuel as [|fuel IH]; intros index.
  - exists O. simpl. repeat split; intros; lia.
  - simpl. destruct (Nat.leb (length input) (base_index_at fl ratio index)) eqn:Hb.
    + exists O. apply Nat.leb_le in Hb. rewrite Nat.add_0_r.
      repeat split; simpl; intros; try lia; assumption.
    + apply Nat.leb_gt in Hb.
      destruct (IH (S index)) as (k & Hk & Heq & Hin & Hout).
      exists (S k). rewrite Heq. repeat split; try lia; try reflexivity.
      * intros [|j] Hj; [rewrite Nat.add_0_r; assumption|].
        replace (index + S j)%nat with (S index + j)%nat by lia. apply Hin. lia.
      * intros Hlt. replace (index + S k)%nat with (S index + k)%nat by lia.
        apply Hout. lia.
Qed.

(** With exact arithmetic, an index below [floor(N / ratio)] has its
    source position below [N]: the [break] never fires. *)
Lemma exact_base_index_in_range (N k : nat) (ratio : Q) :
  0 < ratio ->
  (k < Z.to_nat (Qfloor (inject_Z (Z.of_nat N) / ratio)))%nat ->
  (Z.to_nat (Qfloor (inject_Z (Z.of_nat k) * ratio)) < N)%nat.
Proof.
  intros Hr Hk.
  set (F := Qfloor (inject_Z (Z.of_nat N) / ratio)) in *.
  assert (HkF : (Z.of_nat k + 1 <= F)%Z) by lia.
  assert (HF : inject_Z F <= inject_Z (Z.of_nat N) / ratio) by apply Qfloor_le.
  rewrite Zle_Qle, inject_Z_plus in HkF. change (inject_Z 1) with 1 in HkF.
  assert (Hmul : (inject_Z (Z.of_nat k) + 1) * ratio <= inject_Z (Z.of_nat N) / ratio * ratio).
  { apply Qmult_le_compat_r; [lra | lra]. }
  setoid_replace (inject_Z (Z.of_nat N) / ratio * ratio) with (inject_Z (Z.of_nat N)) in Hmul
    by (field; intro E; rewrite E in Hr; discriminate).
  assert (Hlt : inject_Z (Z.of_nat k) * ratio < inject_Z (Z.of_nat N)).
  { setoid_replace ((inject_Z (Z.of_nat k) + 1) * ratio)
      with (inject_Z (Z.of_nat k) * ratio + ratio) in Hmul by ring. lra. }
  pose proof (Qfloor_le (inject_Z (Z.of_nat k) * ratio)) as Hfl.
  assert (Hz : (Qfloor (inject_Z (Z.of_nat k) * ratio) < Z.of_nat N)%Z).
  { rewrite Zlt_Qlt. lra. }
  assert (Hk0 : 0 <= inject_Z (Z.of_nat k) * ratio).
  { apply Qmult_le_0_compat; [|lra].
    change 0 with (inject_Z 0). rewrite <- Zle_Qle. lia. }
  assert (HN : (0 < Z.of_nat N)%Z) by (rewrite Zlt_Qlt; change (inject_Z 0) with 0; lra).
  lia.
Qed.

(** C5 (as amended).  For any rounding with the properties of [f32]:
    an empty input or a source rate [<= 0] gives an empty output; for a
    non-empty input and a rate [R > 0] at least 1 Hz away from 16000, the
    output is the interpolated samples of indices [0 .. k-1], where [k] is
    [floor(N / ratio)] computed with [f32] rounding ([N], [ratio = R/16000]
    and the quotient each rounded) unless the [break] guard stops the loop
    earlier at the first index whose source position reaches [N].  With
    exact arithmetic the output length is exactly [floor(N * 16000 / R)]
    and sample [i] is the linear interpolation between
    [input[floor(i * ratio)]] and [input[min(floor(i * ratio) + 1, N - 1)]]
    weighted by the fractional part of [i * ratio]. *)
Theorem resample_length_law (fl : Q -> Q) `{Rounding fl} (input : list Q) (R : Q) :
  ((input = [] \/ R <= 0) -> resample_to_output_rate fl input R = []) /\
  (input <> [] -> 0 < R -> 1 <= Qabs (R - OUTPUT_SAMPLE_RATE) ->
   let ratio := fl (R / OUTPUT_SAMPLE_RATE) in
   exists k,
     (k <= resample_output_len fl input ratio)%nat /\
     resample_to_output_rate fl input R = map (interpolate fl input ratio) (seq 0 k) /\
     (forall j, (j < k)%nat -> (base_index_at fl ratio j < length input)%nat) /\
     ((k < resample_output_len fl input ratio)%nat ->
      (length input <= base_index_at fl ratio k)%nat)) /\
  (input <> [] -> 0 < R -> 1 <= Qabs (R - OUTPUT_SAMPLE_RATE) ->
   resample_to_output_rate exact input R
   = map (fun i =>
            let position := inject_Z (Z.of_nat i) * (R / OUTPUT_SAMPLE_RATE) in
            let base := Z.to_nat (Qfloor position) in
            let next := Nat.min (base + 1) (length input - 1) in
            let fraction := position - inject_Z (Z.of_nat base) in
            nth base input 0 * (1 - fraction) + nth next input 0 * fraction)
         (seq 0 (Z.to_nat (Qfloor (inject_Z (Z.of_nat (length input)) * OUTPUT_SAMPLE_RATE / R))))).
Proof.
  split; [|split].
  - intros [-> | HR]; unfold resample_to_output_rate; [reflexivity|].
    apply Qle_bool_iff in HR. rewrite HR, andb_false_r. reflexivity.
  - intros Hne HR Hd ratio.
    destruct input as [|x xs]; [congruence|].
    unfold resample_to_output_rate. rewrite (Qle_bool_false R 0) by lra. simpl.
    rewrite Qlt_bool_false.
    2:{ unfold OUTPUT_SAMPLE_RATE in *.
        destruct (Qlt_le_dec (R - 16000) 0) as [Hn|Hp].
        - rewrite Qabs_neg in Hd by lra.
          assert (Hm : fl (R - 16000) <= fl (inject_Z (-1))) by (apply fl_mono; change (inject_Z (-1)) with (-1); lra).
          rewrite (fl_int (-1)) in Hm by lia. change (inject_Z (-1)) with (-1) in Hm.
          rewrite <- Qabs_opp. apply Qabs_ge. lra.
        - rewrite Qabs_pos in Hd by lra.
          assert (Hm : fl (inject_Z 1) <= fl (R - 16000)) by (apply fl_mono; change (inject_Z 1) with 1; lra).
          rewrite (fl_int 1) in Hm by lia. change (inject_Z 1) with 1 in Hm.
          apply Qabs_ge. lra. }
    fold ratio.
    destruct (resample_loop_spec fl (x :: xs) ratio (resample_output_len fl (x :: xs) ratio) 0)
      as (k & Hk & Heq & Hin & Hout).
    exists k. repeat split; assumption.
  - intros Hne HR Hd.
    destruct input as [|x xs]; [congruence|].
    set (input := x :: xs).
    set (ratio := R / OUTPUT_SAMPLE_RATE).
    assert (Hratio : 0 < ratio).
    { unfold ratio, OUTPUT_SAMPLE_RATE. apply Qlt_shift_div_l; [reflexivity|]. lra. }
    unfold resample_to_output_rate. rewrite (Qle_bool_false R 0) by lra.
    unfold input at 1. cbn [is_nonempty andb negb].
    rewrite Qlt_bool_false by (unfold exact; assumption).
    match goal with
    | |- _ = ?rhs =>
        change (resample_loop exact input ratio (resample_output_len exact input ratio) 0 = rhs)
    end.
    assert (Hlen : resample_output_len exact input ratio
                   = Z.to_nat (Qfloor (inject_Z (Z.of_nat (length input)) * OUTPUT_SAMPLE_RATE / R))).
    { unfold resample_output_len, exact. f_equal. apply Qfloor_comp.
      unfold ratio, OUTPUT_SAMPLE_RATE. field.
      intro E. rewrite E in HR. discriminate. }
    destruct (resample_loop_spec exact input ratio (resample_output_len exact input ratio) 0)
      as (k & Hk & Heq & Hin & Hout).
    assert (Hkeq : k = resample_output_len exact input ratio).
    { destruct (Nat.lt_ge_cases k (resample_output_len exact input ratio)) as [Hlt|Hge]; [|lia].
      exfalso. specialize (Hout Hlt). rewrite Nat.add_0_l in Hout.
      unfold base_index_at, source_pos, exact in Hout.
      pose proof (exact_base_index_in_range (length input) k ratio Hratio) as Hr.
      unfold resample_output_len, exact in Hlt. specialize (Hr Hlt). lia. }
    rewrite Heq, Hkeq, Hlen. reflexivity.
Qed.

Lemma Qlt_bool_iff (x y : Q) : Qlt_bool x y = true <-> x < y.
Proof.
  unfold Qlt_bool. rewrite negb_true_iff. split; intros H.
  - apply Qnot_le_lt. intros Hle. apply Qle_bool_iff in Hle. congruence.
  - apply not_true_is_false. rewrite Qle_bool_iff. lra.
Qed.

Lemma clamp_cases (x : Q) :
  (x < -1 /\ clamp x (-1) 1 = -1) \/ (1 < x /\ clamp x (-1) 1 = 1)
  \/ (-1 <= x <= 1 /\ clamp x (-1) 1 = x).
Proof.
  unfold clamp.
  destruct (Qlt_bool x (-1)) eqn:E1; [left; split; [apply Qlt_bool_iff; assumption|reflexivity]|].
  destruct (Qlt_bool 1 x) eqn:E2; [right; left; split; [apply Qlt_bool_iff; assumption|reflexivity]|].
  right; right. split; [|reflexivity].
  rewrite <- not_true_iff_false, Qlt_bool_iff in E1, E2. split; apply Qnot_lt_le; assumption.
Qed.

Lemma clamp_bounds (x : Q) : -1 <= clamp x (-1) 1 <= 1.
Proof. destruct (clamp_cases x) as [[? ->]|[[? ->]|[? ->]]]; lra. Qed.

(** [clamp] does not increase distances. *)
Lemma clamp_lipschitz (x y : Q) :
  Qabs (clamp x (-1) 1 - clamp y (-1) 1) <= Qabs (x - y).
Proof.
  apply Qabs_Qle_condition.
  pose proof (Qle_Qabs (x - y)). pose proof (Qle_Qabs (- (x - y))).
  rewrite Qabs_opp in H0.
  destruct (clamp_cases x) as [[? ->]|[[? ->]|[? ->]]];
  destruct (clamp_cases y) as [[? ->]|[[? ->]|[? ->]]]; lra.
Qed.

Lemma round_half_away_err (x : Q) :
  Qabs (inject_Z (round_half_away x) - x) <= 1 # 2.
Proof.
  apply Qabs_Qle_condition. unfold round_half_away.
  destruct (Qle_bool 0 x).
  - pose proof (Qfloor_le (x + (1 # 2))). pose proof (Qlt_floor (x + (1 # 2))).
    rewrite inject_Z_plus in H0. change (inject_Z 1) with 1 in H0. lra.
  - rewrite inject_Z_opp.
    pose proof (Qfloor_le (- x + (1 # 2))). pose proof (Qlt_floor (- x + (1 # 2))).
    rewrite inject_Z_plus in H0. change (inject_Z 1) with 1 in H0. lra.
Qed.

Lemma round_half_away_le (x : Q) (b : Z) :
  x < inject_Z b + (1 # 2) -> - (inject_Z b + (1 # 2)) < x ->
  (- b <= round_half_away x <= b)%Z.
Proof.
  intros Hhi Hlo. pose proof (round_half_away_err x) as E.
  apply Qabs_Qle_condition in E.
  set (r := round_half_away x) in *.
  split.
  - destruct (Z_lt_le_dec r (- b)) as [Hl|Hl]; [exfalso|assumption].
    assert (H : (r + 1 <= - b)%Z) by lia.
    rewrite Zle_Qle, inject_Z_plus, inject_Z_opp in H. change (inject_Z 1) with 1 in H. lra.
  - destruct (Z_lt_le_dec b r) as [Hl|Hl]; [exfalso|assumption].
    assert (H : (b + 1 <= r)%Z) by lia.
    rewrite Zle_Qle, inject_Z_plus in H. change (inject_Z 1) with 1 in H. lra.
Qed.

(** [i16::from_le_bytes] inverts [i16::to_le_bytes]. *)
Lemma i16_le_bytes_roundtrip (v : Z) :
  (-32768 <= v <= 32767)%Z ->
  chunks_exact2 (i16_to_le_bytes v) = [((v mod 65536) mod 256, (v mod 65536) / 256)%Z] /\
  i16_from_le_bytes ((v mod 65536) mod 256) ((v mod 65536) / 256) = v.
Proof.
  intros Hv. split; [reflexivity|].
  unfold i16_from_le_bytes.
  destruct (Z.leb_spec 32768 ((v mod 65536) mod 256 + 256 * ((v mod 65536) / 256))); Z.div_mod_to_equations; lia.
Qed.

Lemma eta_small : 0 <= 1 # 2 ^ 150 <= 1 # 1000000000.
Proof. split; unfold Qle; simpl; lia. Qed.

(** C2 (as amended).  For every sample [s] in [[-1, 1]] and any rounding
    with the properties of [f32], the quantizer writes the integer
    [p = round(clamp(1.25 s) * 32767)], which lies in [[-32767, 32767]]; the
    bytes decode back to [p / 32768], and [p / 32768] (as well as the decoded
    [f32]) is within [2/32768] of the amplified, clamped sample
    [clamp(1.25 s, -1, 1)], i.e. of [1.25 s] where no clamping occurred
    (not of [s] itself). *)
Theorem quantize_roundtrip (fl : Q -> Q) `{Rounding fl} (s : Q) :
  -1 <= s <= 1 ->
  let p := quantize_sample fl s in
  (-32767 <= p <= 32767)%Z /\
  decode_i16_mono fl (float_to_pcm_bytes fl [s]) 1 = [fl (fl (inject_Z p) / 32768)] /\
  Qabs (inject_Z p / 32768 - clamp (s * OUTPUT_GAIN) (-1) 1) <= 2 # 32768 /\
  Qabs (fl (fl (inject_Z p) / 32768) - clamp (s * OUTPUT_GAIN) (-1) 1) <= 2 # 32768.
Proof.
  intros Hs p.
  pose proof eta_small as Heta.
  set (eta := 1 # 2 ^ 150) in *.
  set (y := s * OUTPUT_GAIN).
  assert (Hy : Qabs y <= 5 # 4).
  { apply Qabs_Qle_condition. unfold y, OUTPUT_GAIN. lra. }
  pose proof (fl_err y) as E1. fold eta in E1.
  assert (E1' : Qabs (fl y - y) <= (5 # 4) * (1 # 16777216) + eta).
  { pose proof (Qabs_nonneg y). lra. }
  set (a := clamp (fl y) (-1) 1).
  set (c := clamp y (-1) 1).
  pose proof (clamp_lipschitz (fl y) y) as Hac. fold a c in Hac.
  pose proof (clamp_bounds (fl y)) as Ha. fold a in Ha.
  set (z := fl (a * inject_Z I16_MAX)).
  assert (Haz : Qabs (a * inject_Z I16_MAX) <= 32767).
  { apply Qabs_Qle_condition. unfold I16_MAX. change (inject_Z 32767) with 32767. lra. }
  pose proof (fl_err (a * inject_Z I16_MAX)) as E2. fold eta z in E2.
  apply Qabs_Qle_condition in E1, E2, Hac.
  assert (Hz : Qabs (z - a * 32767) <= 32767 * (1 # 16777216) + eta).
  { apply Qabs_Qle_condition. unfold I16_MAX in E2, Haz.
    change (inject_Z 32767) with 32767 in E2, Haz. lra. }
  apply Qabs_Qle_condition in Hz.
  set (r := round_half_away z).
  pose proof (round_half_away_err z) as Er. fold r in Er. apply Qabs_Qle_condition in Er.
  assert (Hr : (- 32767 <= r <= 32767)%Z).
  { apply (round_half_away_le z 32767); change (inject_Z 32767) with 32767; lra. }
  assert (Hp : p = r).
  { unfold p, quantize_sample, sat_i16. fold y a z r. lia. }
  assert (Hc0 : Qabs (inject_Z p / 32768 - c) <= (3 # 65536) + (1 # 1000000)).
  { rewrite Hp. apply Qabs_Qle_condition. unfold Qdiv.
    change (/ 32768) with (1 # 32768).
    pose proof (Qabs_nonneg y). lra. }
  assert (Hc : Qabs (inject_Z p / 32768 - c) <= 2 # 32768).
  { eapply Qle_trans; [exact Hc0|]. unfold Qle; simpl; lia. }
  assert (Hfp : fl (inject_Z p) == inject_Z p) by (apply fl_int; lia).
  split; [lia|]. split; [|split; [exact Hc|]].
  - unfold float_to_pcm_bytes. cbn [flat_map]. rewrite app_nil_r. fold p.
    destruct (i16_le_bytes_roundtrip p) as [Hch Hv]; [lia|].
    unfold decode_i16_mono. rewrite Hch. simpl map. rewrite Hv. reflexivity.
  - assert (Hq : Qabs (inject_Z p / 32768) <= 1).
    { apply Qabs_Qle_condition. rewrite Hp. unfold Qdiv. change (/ 32768) with (1 # 32768).
      assert (Hrq : -32767 <= inject_Z r <= 32767).
      { destruct Hr as [Hr1 Hr2]. rewrite Zle_Qle in Hr1, Hr2. split; assumption. }
      lra. }
    pose proof (fl_err (inject_Z p / 32768)) as E3. fold eta in E3.
    rewrite (fl_proper _ _ (Qdiv_comp _ _ Hfp 32768 32768 (Qeq_refl _))).
    apply Qabs_Qle_condition in E3, Hc0. apply Qabs_Qle_condition.
    pose proof (Qabs_nonneg (inject_Z p / 32768)). lra.
Qed.

(** *** Mixing *)

Section Mixing.

Variable fl : Q -> Q.

Lemma add_stream_length (m s : list Q) : length (add_stream fl m s) = length m.
Proof.
  revert s; induction m as [|x m IH]; intros [|y s]; simpl; auto.
Qed.

Lemma add_stream_nth (m s : list Q) (j : nat) :
  (j < length m)%nat -> (j < length s)%nat ->
  nth j (add_stream fl m s) 0 = fl (nth j m 0 + nth j s 0).
Proof.
  revert s j; induction m as [|x m IH]; intros [|y s] j Hm Hs; simpl in *; try lia.
  destruct j; simpl; [reflexivity|]. apply IH; lia.
Qed.

Lemma fold_add_stream_length (D : list (list Q)) (m : list Q) :
  length (fold_left (add_stream fl) D m) = length m.
Proof.
  revert m; induction D as [|s D IH]; intros m; simpl; auto.
  rewrite IH. apply add_stream_length.
Qed.

Lemma fold_add_stream_nth (D : list (list Q)) (m : list Q) (j : nat) :
  (j < length m)%nat -> (forall s, In s D -> (j < length s)%nat) ->
  nth j (fold_left (add_stream fl) D m) 0
  = fold_left (fun acc stream => fl (acc + nth j stream 0)) D (nth j m 0).
Proof.
  revert m; induction D as [|s D IH]; intros m Hm HD; simpl; auto.
  rewrite IH.
  - rewrite add_stream_nth; auto with datatypes.
  - rewrite add_stream_length; exact Hm.
  - intros; apply HD; auto with datatypes.
Qed.

Lemma min_len_spec (D : list (list Q)) :
  D <> [] ->
  exists n, min_len D = Some n /\ (forall s, In s D -> (n <= length s)%nat) /\
            (exists s, In s D /\ length s = n).
Proof.
  induction D as [|s D IH]; intros HD; [congruence|].
  simpl. destruct D as [|s' D'].
  - exists (length s). simpl. split; [reflexivity|]. split.
    + intros t [<-|[]]; lia.
    + exists s; auto.
  - destruct IH as [n [Hn [Hle [t [Ht Htn]]]]]; [discriminate|].
    rewrite Hn. exists (Nat.min (length s) n). split; [reflexivity|]. split.
    + intros u [<-|Hu]; [lia|]. specialize (Hle u Hu). lia.
    + destruct (Nat.le_ge_cases (length s) n).
      * exists s; split; [left; reflexivity|lia].
      * exists t; split; [right; exact Ht|lia].
Qed.

(** The mixing step on at least two non-empty sequences: the column sums,
    each divided by the number of sequences, up to the shortest length. *)
Lemma mix_per_buffer_spec (D : list (list Q)) :
  (2 <= length D)%nat -> (forall s, In s D -> s <> []) ->
  exists n, min_len D = Some n /\ (0 < n)%nat /\
    (forall s, In s D -> (n <= length s)%nat) /\
    (exists s, In s D /\ length s = n) /\
    mix_per_buffer fl D
    = map (fun j => fl (column_sum fl D j / fl (inject_Z (Z.of_nat (length D)))))
          (seq 0 n).
Proof.
  intros Hlen Hne.
  destruct (min_len_spec D) as [n [Hn [Hle [t [Ht Htn]]]]].
  { intros ->; simpl in Hlen; lia. }
  assert (Hn0 : (0 < n)%nat).
  { subst n. destruct t; [exfalso; exact (Hne [] Ht eq_refl)|simpl; lia]. }
  exists n. repeat split; auto; [exists t; auto|].
  destruct D as [|a [|b D']]; simpl in Hlen; try lia.
  change (mix_per_buffer fl (a :: b :: D')) with
    (match min_len (a :: b :: D') with
     | None => [] | Some O => []
     | Some n =>
         map (fun sample => fl (sample / fl (inject_Z (Z.of_nat (length (a :: b :: D'))))))
           (fold_left (add_stream fl) (a :: b :: D') (repeat 0 n))
     end).
  rewrite Hn. destruct n as [|n']; [lia|].
  set (D := a :: b :: D') in *.
  set (dv := fl (inject_Z (Z.of_nat (length D)))).
  apply nth_ext with (d := fl (0 / dv)) (d' := fl (column_sum fl D 0 / dv)).
  - rewrite length_map, fold_add_stream_length, repeat_length, length_map, length_seq.
    reflexivity.
  - intros j Hj.
    rewrite length_map, fold_add_stream_length, repeat_length in Hj.
    rewrite (map_nth (fun sample => fl (sample / dv))).
    rewrite (map_nth (fun j => fl (column_sum fl D j / dv))).
    rewrite seq_nth by exact Hj.
    rewrite fold_add_stream_nth.
    + rewrite nth_repeat. reflexivity.
    + rewrite repeat_length; exact Hj.
    + intros s Hs. specialize (Hle s Hs). lia.
Qed.

End Mixing.

Lemma filter_nonempty_spec (D : list (list Q)) :
  forall s, In s (filter is_nonempty D) -> s <> [].
Proof.
  intros s Hs. apply filter_In in Hs. destruct Hs as [_ Hs].
  destruct s; [discriminate|congruence].
Qed.

(** C3 (as amended).  [mix_to_mono] first drops the buffers whose decoded
    sequence is empty.  No buffer left gives the empty sequence, one buffer
    left gives its sequence, and two or more give, for each index below the
    shortest kept length [n], the [f32] column sum divided by the number of
    kept buffers; the samples past [n] are dropped.  In [f32],
    [[1, 1]] and [[-1, -1]] mix to [[0, 0]], and sequences of lengths 5 and 3
    mix to a sequence of length 3. *)
Theorem mix_to_mono_average (fl : Q -> Q) (f32v : Z * Z * Z * Z -> Q)
    (buffers : list AudioBuffer) (is_float : bool) :
  let D := filter is_nonempty (map (decode_buffer fl f32v is_float) buffers) in
  (D = [] -> mix_to_mono fl f32v buffers is_float = []) /\
  (forall x, D = [x] -> mix_to_mono fl f32v buffers is_float = x) /\
  ((2 <= length D)%nat ->
   exists n, (0 < n)%nat /\ (forall s, In s D -> (n <= length s)%nat) /\
     (exists s, In s D /\ length s = n) /\
     mix_to_mono fl f32v buffers is_float
     = map (fun j => fl (column_sum fl D j / fl (inject_Z (Z.of_nat (length D)))))
           (seq 0 n)) /\
  mix_per_buffer fl32 [[1; 1]; [-1; -1]] = [0; 0] /\
  length (mix_per_buffer fl32 [[1; 2; 3; 4; 5]; [1; 2; 3]]) = 3%nat.
Proof.
  intros D. unfold mix_to_mono. fold D.
  split; [intros ->; reflexivity|].
  split; [intros x ->; reflexivity|].
  split; [|split; vm_compute; reflexivity].
  intros Hlen.
  destruct (mix_per_buffer_spec fl D Hlen (filter_nonempty_spec _))
    as [n [_ [Hn0 [Hle [Hex Heq]]]]].
  exists n. auto.
Qed.

(** C10.  Buffers whose decoded sequence is empty are dropped before the
    shortest length is taken: the result is the mixing of the non-empty
    decoded sequences only, its length is the minimum over those, and an
    empty buffer next to a non-empty one leaves the latter unchanged. *)
Theorem mix_to_mono_skips_empty (fl : Q -> Q) (f32v : Z * Z * Z * Z -> Q)
    (buffers : list AudioBuffer) (is_float : bool) :
  let D := filter is_nonempty (map (decode_buffer fl f32v is_float) buffers) in
  mix_to_mono fl f32v buffers is_float = mix_per_buffer fl D /\
  ((2 <= length D)%nat ->
   min_len D = Some (length (mix_to_mono fl f32v buffers is_float))) /\
  (forall b1 b2, decode_buffer fl f32v is_float b1 = [] ->
     decode_buffer fl f32v is_float b2 <> [] ->
     mix_to_mono fl f32v [b1; b2] is_float = decode_buffer fl f32v is_float b2).
Proof.
  intros D. split; [reflexivity|]. split.
  - intros Hlen.
    destruct (mix_per_buffer_spec fl D Hlen (filter_nonempty_spec _))
      as [n [Hn [_ [_ [_ Heq]]]]].
    unfold mix_to_mono. fold D. rewrite Heq, length_map, length_seq. exact Hn.
  - intros b1 b2 H1 H2. unfold mix_to_mono. simpl. rewrite H1. simpl.
    destruct (decode_buffer fl f32v is_float b2) eqn:E; [congruence|].
    reflexivity.
Qed.

(** *** Instances and counterexamples *)

(** C4 at a rate half a hertz above the output rate. *)
Lemma resample_identity_near_output_rate_witness :
  exact (32001 # 2) == 32001 # 2 /\
  Qabs ((32001 # 2) - OUTPUT_SAMPLE_RATE) < 1 /\
  resample_to_output_rate exact [1; 2; 3] (32001 # 2) = [1; 2; 3].
Proof.
  split; [reflexivity|]. split; [vm_compute; reflexivity|].
  apply (resample_identity_near_output_rate exact); [reflexivity|vm_compute; reflexivity].
Defined.

(** C5 at 48 kHz: six samples become two. *)
Lemma resample_length_law_witness :
  Rounding exact /\
  length (resample_to_output_rate exact [1; 2; 3; 4; 5; 6] 48000) = 2%nat.
Proof.
  split; [exact exact_rounding|].
  destruct (resample_length_law exact [1; 2; 3; 4; 5; 6] 48000) as [_ [_ H3]].
  rewrite H3; [| discriminate | vm_compute; reflexivity | vm_compute; intro; discriminate].
  rewrite length_map, length_seq. vm_compute. reflexivity.
Defined.

(** C5 refuted in [f32]: nine samples at 2400 Hz give 59 samples, while
    [floor(9 * 16000 / 2400) = 60]; the ratio [0.15] is not exact in [f32]
    and [9 / ratio] rounds to just below 60. *)
Lemma resample_length_counterexample :
  length (resample_to_output_rate fl32 (repeat 0 9) 2400) = 59%nat /\
  Qfloor (inject_Z 9 * OUTPUT_SAMPLE_RATE / 2400) = 60%Z.
Proof. vm_compute. split; reflexivity. Qed.

(** C2 at the sample [1/2]. *)
Lemma quantize_roundtrip_witness :
  -1 <= 1 # 2 <= 1 /\
  (-32767 <= quantize_sample exact (1 # 2) <= 32767)%Z /\
  decode_i16_mono exact (float_to_pcm_bytes exact [1 # 2]) 1
  = [exact (exact (inject_Z (quantize_sample exact (1 # 2))) / 32768)] /\
  Qabs (inject_Z (quantize_sample exact (1 # 2)) / 32768
        - clamp ((1 # 2) * OUTPUT_GAIN) (-1) 1) <= 2 # 32768 /\
  Qabs (exact (exact (inject_Z (quantize_sample exact (1 # 2))) / 32768)
        - clamp ((1 # 2) * OUTPUT_GAIN) (-1) 1) <= 2 # 32768.
Proof.
  split; [lra|].
  exact (quantize_roundtrip exact (1 # 2) ltac:(lra)).
Defined.

(** C2 refuted: the sample [1/2] is written as 20479 and decodes to
    [20479/32768], about [0.625 = 1.25 * 1/2], far more than [1/32768] from
    [1/2], although [1.25 * 1/2] is not clamped. *)
Lemma quantize_roundtrip_counterexample :
  quantize_sample fl32 (1 # 2) = 20479%Z /\
  -1 <= (1 # 2) * OUTPUT_GAIN <= 1 /\
  match decode_i16_mono fl32 (float_to_pcm_bytes fl32 [1 # 2]) 1 with
  | [d] => Qeq_bool d (20479 # 32768) = true /\
           Qlt_bool (1 # 32768) (Qabs (d - (1 # 2))) = true
  | _ => False
  end.
Proof.
  split; [vm_compute; reflexivity|]. split; [unfold OUTPUT_GAIN; lra|].
  vm_compute. split; reflexivity.
Qed.

(** C3 refuted: of two mono buffers, the first holds a single byte and
    decodes to no sample, the second decodes to one sample; the shortest
    decoded length is 0, yet the mix has one sample.  (The [f32] decoder is
    not used on [i16] data.) *)
Lemma mix_to_mono_counterexample :
  let bufs := [{| number_channels := 1; data := [0%Z] |};
               {| number_channels := 1; data := [0%Z; 64%Z] |}] in
  map (fun b => length (decode_buffer fl32 (fun _ => 0) false b)) bufs = [0%nat; 1%nat] /\
  length (mix_to_mono fl32 (fun _ => 0) bufs false) = 1%nat.
Proof. vm_compute. split; reflexivity. Qed.

End CodecFacts.

(* ================================================================== *)
(** * Properties of the session supervisor *)

Module SessionFacts.

Import Session Worker Samples.

Lemma rstring_eqb_false (a b : rstring) : a <> b -> rstring_eqb a b = false.
Proof. unfold rstring_eqb. destruct (list_eq_dec Z.eq_dec a b); congruence. Qed.

Lemma final_not_status : rstring_eqb (lit "final") (lit "status") = false.
Proof. reflexivity. Qed.

Lemma final_not_partial : rstring_eqb (lit "final") (lit "partial") = false.
Proof. reflexivity. Qed.

Lemma final_is_final : rstring_eqb (lit "final") (lit "final") = true.
Proof. reflexivity. Qed.

(** The [final] branch of [handle_parsed_event]. *)
Lemma final_event_step (T : rstring) (m : option rstring) (w : World) :
  handle_parsed_event {| event_type := lit "final"; text := Some T; message := m |} w
  = let s' := if non_blank T && (str_len (transcript (state w)) <? str_len T)
              then set_transcript T (state w) else state w in
    (Ok tt, {| state := s'; fs := fs w; log := EmitState s' :: log w |}).
Proof.
  unfold handle_parsed_event. cbn [event_type text message].
  rewrite final_not_status, final_not_partial, final_is_final. reflexivity.
Qed.

(** C1 (as amended).  On a [final] event with text [T] the transcript
    becomes [T] exactly when [T] is not blank and its UTF-8 encoding is
    strictly longer, in bytes, than that of the current transcript;
    otherwise the session is unchanged (a snapshot is published either
    way).  From the transcript "hello", "hi" leaves it and "hello world"
    replaces it. *)
Theorem final_event_replacement (T : rstring) (m : option rstring) (w : World) :
  let s' := if non_blank T && (str_len (transcript (state w)) <? str_len T)
            then set_transcript T (state w) else state w in
  handle_parsed_event {| event_type := lit "final"; text := Some T; message := m |} w
  = (Ok tt, {| state := s'; fs := fs w; log := EmitState s' :: log w |}) /\
  transcript s' = (if non_blank T && (str_len (transcript (state w)) <? str_len T)
                   then T else transcript (state w)) /\
  (transcript (state w) = lit "hello" ->
   transcript (state (snd (handle_parsed_event
     {| event_type := lit "final"; text := Some (lit "hi"); message := m |} w)))
   = lit "hello") /\
  (transcript (state w) = lit "hello" ->
   transcript (state (snd (handle_parsed_event
     {| event_type := lit "final"; text := Some (lit "hello world"); message := m |} w)))
   = lit "hello world").
Proof.
  intros s'. split; [apply final_event_step|]. split.
  - unfold s'. destruct (non_blank T && _); reflexivity.
  - split; intros Ht; rewrite final_event_step; cbn [snd state]; rewrite Ht;
      match goal with
      | |- context [if ?b then _ else _] =>
          let v := eval vm_compute in b in change b with v
      end; cbn [transcript set_transcript]; auto.
Qed.

(** C8.  A line the decoder rejects, or an event whose type is none of
    [status], [partial], [final], [error], changes nothing and succeeds. *)
Theorem unrecognised_line_ignored (parse_worker_event : rstring -> option WorkerEvent)
    (line : rstring) (w : World) :
  (parse_worker_event line = None \/
   exists ev, parse_worker_event line = Some ev /\
              ~ In (event_type ev) [lit "status"; lit "partial"; lit "final"; lit "error"]) ->
  handle_worker_event parse_worker_event line w = (Ok tt, w).
Proof.
  unfold handle_worker_event. intros [Hn|[ev [Hs Hin]]]; rewrite ?Hn, ?Hs; [reflexivity|].
  unfold handle_parsed_event.
  rewrite !rstring_eqb_false; [reflexivity| |..]; intros E; apply Hin; rewrite E; simpl; tauto.
Qed.

Lemma unrecognised_line_ignored_witness :
  ((fun _ : rstring => @None WorkerEvent) (lit "not json") = None \/
   exists ev, (fun _ : rstring => @None WorkerEvent) (lit "not json") = Some ev /\
              ~ In (event_type ev) [lit "status"; lit "partial"; lit "final"; lit "error"]) /\
  handle_worker_event (fun _ => None) (lit "not json")
    (sample_world Recording (lit "abc") None []) =
  (Ok tt, sample_world Recording (lit "abc") None []).
Proof.
  split; [left; reflexivity|].
  apply unrecognised_line_ignored. left; reflexivity.
Defined.

(** C1 refuted: "éé" has 2 characters but 4 bytes, so it replaces the
    3-character transcript "abc". *)
Lemma final_event_counterexample :
  transcript (state (snd (handle_parsed_event
    {| event_type := lit "final"; text := Some [233; 233]; message := None |}
    (sample_world Recording (lit "abc") None [])))) = [233; 233] /\
  (length [233; 233] < length (lit "abc"))%nat.
Proof. vm_compute. split; [reflexivity|lia]. Qed.

(** *** Starting and stopping *)

(** Case analysis on every test a command makes, leaving the monad's own
    pair matches to reduction. *)
Ltac M_cases :=
  repeat (simpl; match goal with
    | |- context [match ?x with _ => _ end] =>
        lazymatch type of x with
        | prod _ _ => fail
        | _ => destruct x eqn:?
        end
    end).

(** The same, keeping the file-system functions folded. *)
Ltac M_cases_fs :=
  repeat (cbn -[add_path create_dir_all path_exists model_ready lit display worker_args];
    match goal with
    | |- context [match ?x with _ => _ end] =>
        lazymatch type of x with
        | prod _ _ => fail
        | _ => destruct x eqn:?
        end
    end).

Ltac unfold_M :=
  unfold bind, read_state, read_fs, write_state, write_fs, emit_state, update_state,
    perform, throw, ret.

(** C7.  When the session is already recording, or, once the scripts are
    written, the interpreter or the model is missing, [start_recording]
    fails, leaves the session as it was (no worker installed) and spawns
    no process or task. *)
Theorem start_preflight_rejects (env : StartEnv) (w : World) :
  let s := state w in
  let fs1 := fs_after_scripts s (fs w) in
  status s = Recording \/ path_exists fs1 (venv_python s) = false \/
  model_ready fs1 (model_path s) = false ->
  exists msg w', start_recording env w = (Err msg, w') /\ state w' = state w /\
    (forall e, In e (log w') -> In e (log w) \/ is_spawn e = false).
Proof.
  intros s fs1 H. subst s fs1. unfold fs_after_scripts in H.
  unfold start_recording, ensure_scripts, write_if_changed. unfold_M.
  revert H. M_cases_fs.
  all: intros H.
  all: try (exfalso; destruct H as [H|[H|H]]; rewrite H in *; discriminate).
  all: eexists _, _; split; [reflexivity|]; split; [reflexivity|].
  all: intros e He; simpl in He;
       repeat (destruct He as [He|He]; [subst e; right; reflexivity|]); left; exact He.
Qed.

Lemma worker_stop_not_recording (env : StopEnv) (w : World) :
  status (state w) <> Recording ->
  stop_recording env w = (Err (lit "recording is not active"), w).
Proof.
  intros Hst. unfold stop_recording, take_worker. unfold_M.
  destruct (status (state w)); try reflexivity. congruence.
Qed.

Lemma worker_stop_missing_worker (env : StopEnv) (w : World) :
  status (state w) = Recording -> worker (state w) = None ->
  exists w1, stop_recording env w = (Err (lit "missing worker process"), w1) /\
    worker (state w1) = None /\ last_saved_path (state w1) = last_saved_path (state w) /\
    log w1 = log w.
Proof.
  intros Hst Hwk. unfold stop_recording, take_worker. unfold_M.
  rewrite Hst, Hwk. simpl.
  eexists; split; [reflexivity|]. simpl. repeat split.
Qed.

Lemma worker_stop_signal_fails (env : StopEnv) (w : World) (wp : WorkerProcess) (i : nat) :
  status (state w) = Recording -> worker (state w) = Some wp ->
  stdin wp = Some i -> stop_write_ok env = false ->
  exists w1, stop_recording env w = (Err (lit "failed signaling worker to stop"), w1) /\
    worker (state w1) = None /\ last_saved_path (state w1) = last_saved_path (state w) /\
    (forall t, In (SaveMarkdown t) (log w1) -> In (SaveMarkdown t) (log w)).
Proof.
  intros Hst Hwk Hi Hw. unfold stop_recording, take_worker, shutdown_worker. unfold_M.
  rewrite Hst, Hwk. simpl. rewrite Hi, Hw. simpl.
  eexists; split; [reflexivity|]. simpl. repeat split.
  intros t Ht; simpl in Ht;
    repeat (destruct Ht as [Ht|Ht]; [discriminate Ht|]); exact Ht.
Qed.

Lemma worker_stop_kill_fails (env : StopEnv) (w : World) (wp : WorkerProcess) :
  status (state w) = Recording -> worker (state w) = Some wp ->
  (stdin wp = None \/ stop_write_ok env = true) ->
  exited_in_grace env = false -> kill_ok env = false ->
  exists w1, stop_recording env w = (Err (lit "failed killing worker"), w1) /\
    worker (state w1) = None /\ last_saved_path (state w1) = last_saved_path (state w) /\
    (forall t, In (SaveMarkdown t) (log w1) -> In (SaveMarkdown t) (log w)).
Proof.
  intros Hst Hwk Hin He Hk. unfold stop_recording, take_worker, shutdown_worker. unfold_M.
  rewrite Hst, Hwk. simpl. rewrite He, Hk.
  destruct Hin as [Hin|Hin]; [rewrite Hin|destruct (stdin wp); [rewrite Hin|]]; simpl;
    (eexists; split; [reflexivity|]); simpl; repeat split;
    intros t Ht; simpl in Ht;
    repeat (destruct Ht as [Ht|Ht]; [discriminate Ht|]); exact Ht.
Qed.

Lemma worker_stop_blank (env : StopEnv) (w : World) (wp : WorkerProcess) :
  status (state w) = Recording -> worker (state w) = Some wp ->
  (stdin wp = None \/ stop_write_ok env = true) ->
  (exited_in_grace env = true \/ kill_ok env = true) ->
  non_blank (transcript (state_at_check env (state w))) = false ->
  exists w1, stop_recording env w = (Err no_speech_message, w1) /\
    worker (state w1) = None /\
    last_saved_path (state w1) = last_saved_path (state_at_check env (state w)) /\
    (forall t, In (SaveMarkdown t) (log w1) -> In (SaveMarkdown t) (log w)).
Proof.
  intros Hst Hwk Hin Hkill Hblank.
  unfold state_at_check, non_blank in *.
  unfold stop_recording, take_worker, shutdown_worker, finish_stop. unfold_M.
  rewrite Hst, Hwk. revert Hblank. simpl.
  destruct Hin as [Hin|Hin]; rewrite Hin;
  destruct Hkill as [Hk|Hk]; rewrite Hk;
  M_cases; intros Hb; try discriminate Hb.
  all: eexists; split; [reflexivity|]; simpl; repeat split.
  all: intros t Ht; simpl in Ht;
       repeat (destruct Ht as [Ht|Ht]; [discriminate Ht|]); exact Ht.
Qed.

(** C9.  A successful [stop_recording] leaves the session [Ready] with
    message "Ready", the saved path recorded, no error, install progress
    [1.0] and no worker, and publishes that session just before closing the
    floating window and showing the tray window. *)
Theorem stop_success_state (env : StopEnv) (w w' : World) (p : rstring) :
  stop_recording env w = (Ok p, w') ->
  status (state w') = Ready /\ status_message (state w') = lit "Ready" /\
  last_saved_path (state w') = Some p /\ error_message (state w') = None /\
  install_progress (state w') = Some 1%Q /\ worker (state w') = None /\
  exists rest, log w' = ShowTrayWindow :: CloseFloatingWindow :: EmitState (state w') :: rest.
Proof.
  unfold stop_recording, take_worker, shutdown_worker, finish_stop. unfold_M.
  M_cases.
  all: intros H; try discriminate H.
  all: inversion H; subst; clear H.
  all: simpl; repeat split; eexists; reflexivity.
Qed.

(** C7 from an empty file system: the interpreter is missing. *)
Lemma start_preflight_rejects_witness :
  (status (state (sample_world Ready [] None [])) = Recording \/
   path_exists (fs_after_scripts (state (sample_world Ready [] None []))
                  (fs (sample_world Ready [] None [])))
     (venv_python (state (sample_world Ready [] None []))) = false \/
   model_ready (fs_after_scripts (state (sample_world Ready [] None []))
                  (fs (sample_world Ready [] None [])))
     (model_path (state (sample_world Ready [] None []))) = false) /\
  exists msg w', start_recording sample_start_env (sample_world Ready [] None [])
                 = (Err msg, w') /\
    state w' = state (sample_world Ready [] None []) /\
    (forall e, In e (log w') -> In e (log (sample_world Ready [] None [])) \/
                                is_spawn e = false).
Proof.
  assert (Hpre : status (state (sample_world Ready [] None [])) = Recording \/
     path_exists (fs_after_scripts (state (sample_world Ready [] None []))
                    (fs (sample_world Ready [] None [])))
       (venv_python (state (sample_world Ready [] None []))) = false \/
     model_ready (fs_after_scripts (state (sample_world Ready [] None []))
                    (fs (sample_world Ready [] None [])))
       (model_path (state (sample_world Ready [] None []))) = false).
  { right; left; vm_compute; reflexivity. }
  split; [exact Hpre|].
  exact (start_preflight_rejects sample_start_env (sample_world Ready [] None []) Hpre).
Defined.

(** C9 on a recording of "hello" saved to "notes.md". *)
Lemma stop_success_state_witness :
  stop_recording (sample_stop_env true true (Ok (lit "notes.md")))
    (sample_world Recording (lit "hello") (Some sample_worker) [])
  = (Ok (lit "notes.md"),
     snd (stop_recording (sample_stop_env true true (Ok (lit "notes.md")))
            (sample_world Recording (lit "hello") (Some sample_worker) []))) /\
  install_progress (state (snd (stop_recording (sample_stop_env true true (Ok (lit "notes.md")))
            (sample_world Recording (lit "hello") (Some sample_worker) [])))) = Some 1%Q.
Proof.
  assert (Hr : stop_recording (sample_stop_env true true (Ok (lit "notes.md")))
                 (sample_world Recording (lit "hello") (Some sample_worker) [])
               = (Ok (lit "notes.md"),
                  snd (stop_recording (sample_stop_env true true (Ok (lit "notes.md")))
                         (sample_world Recording (lit "hello") (Some sample_worker) []))))
    by (vm_compute; reflexivity).
  split; [exact Hr|].
  destruct (stop_success_state _ _ _ _ Hr) as [_ [_ [_ [_ [Hi _]]]]]. exact Hi.
Defined.

End SessionFacts.

(* ================================================================== *)
(** ** Further properties of the codec and of the capture callback *)

Module CodecExtra.

Import F32 Codec CodecFacts Capture Ranges.
Open Scope Q_scope.

Lemma Qle_bool_false_lt (x y : Q) : Qle_bool x y = false -> y < x.
Proof.
  intros H. apply Qnot_le_lt. intros Hle. apply Qle_bool_iff in Hle. congruence.
Qed.

Lemma chunks_exact2_length (l : list Z) :
  length (chunks_exact2 l) = (length l / 2)%nat.
Proof.
  assert (G : forall n l, (length l <= n)%nat ->
              length (chunks_exact2 l) = (length l / 2)%nat).
  { induction n as [|n IH]; intros l' Hl.
    - destruct l'; [reflexivity | simpl in Hl; lia].
    - destruct l' as [|a [|b rest]]; [reflexivity | reflexivity |].
      cbn [chunks_exact2 length] in Hl |- *. rewrite IH by lia.
      replace (S (S (length rest))) with (length rest + 1 * 2)%nat by lia.
      rewrite Nat.div_add by lia. lia. }
  apply G with (n := length l). lia.
Qed.

Lemma chunks_exact4_length (l : list Z) :
  length (chunks_exact4 l) = (length l / 4)%nat.
Proof.
  assert (G : forall n l, (length l <= n)%nat ->
              length (chunks_exact4 l) = (length l / 4)%nat).
  { induction n as [|n IH]; intros l' Hl.
    - destruct l'; [reflexivity | simpl in Hl; lia].
    - destruct l' as [|a [|b [|c [|d rest]]]]; try reflexivity.
      cbn [chunks_exact4 length] in Hl |- *. rewrite IH by lia.
      replace (S (S (S (S (length rest))))) with (length rest + 1 * 4)%nat by lia.
      rewrite Nat.div_add by lia. lia. }
  apply G with (n := length l). lia.
Qed.

Lemma chunks_exact2_forall (P : Z -> Prop) (l : list Z) :
  Forall P l -> Forall (fun c => P (fst c) /\ P (snd c)) (chunks_exact2 l).
Proof.
  assert (G : forall n l, (length l <= n)%nat -> Forall P l ->
              Forall (fun c => P (fst c) /\ P (snd c)) (chunks_exact2 l)).
  { induction n as [|n IH]; intros l' Hl Hf.
    - destruct l'; [constructor | simpl in Hl; lia].
    - destruct l' as [|a [|b rest]]; [constructor | constructor |].
      rewrite !Forall_cons_iff in Hf. destruct Hf as (Ha & Hb & Hr).
      simpl. constructor; [split; assumption |].
      apply IH; [simpl in Hl; lia | assumption]. }
  intros H. apply G with (n := length l); [lia | assumption].
Qed.

Lemma average_frames_length (fl : Q -> Q) (c : nat) (samples : list Q) :
  forall acc idx, (idx < c)%nat ->
  length (average_frames fl c samples acc idx) = ((length samples + idx) / c)%nat.
Proof.
  induction samples as [|v rest IH]; intros acc idx Hidx.
  - simpl. symmetry. apply Nat.div_small. lia.
  - cbn [average_frames length]. destruct (Nat.eqb_spec (S idx) c) as [E|E].
    + cbn [length]. rewrite IH by lia. rewrite Nat.add_0_r.
      replace (S (length rest) + idx)%nat with (length rest + 1 * c)%nat by lia.
      rewrite Nat.div_add by lia. lia.
    + rewrite IH by lia. f_equal. lia.
Qed.

Lemma i16_from_le_bytes_range (b0 b1 : Z) :
  byte_range b0 -> byte_range b1 -> (-32768 <= i16_from_le_bytes b0 b1 <= 32767)%Z.
Proof.
  unfold byte_range, i16_from_le_bytes. intros H0 H1.
  destruct (Z.leb_spec 32768 (b0 + 256 * b1)); lia.
Qed.

(** A value within an integer bound [b <= 2^24] stays within it once
    rounded. *)
Lemma fl_bounded (fl : Q -> Q) `{Rounding fl} (b : Z) (x : Q) :
  (0 <= b <= 2 ^ 24)%Z -> - inject_Z b <= x <= inject_Z b ->
  - inject_Z b <= fl x <= inject_Z b.
Proof.
  intros Hb [Hlo Hhi]. split.
  - apply Qle_trans with (fl (inject_Z (- b))).
    + rewrite (fl_int (- b)) by lia. rewrite inject_Z_opp. apply Qle_refl.
    + apply fl_mono. rewrite inject_Z_opp. assumption.
  - apply Qle_trans with (fl (inject_Z b)).
    + apply fl_mono. assumption.
    + rewrite (fl_int b) by lia. apply Qle_refl.
Qed.

Lemma fl_unit (fl : Q -> Q) `{Rounding fl} (x : Q) : unit_range x -> unit_range (fl x).
Proof.
  unfold unit_range. intros Hx.
  destruct (fl_bounded fl 1 x) as [A B]; [lia | change (inject_Z 1) with 1; lra |].
  change (inject_Z 1) with 1 in A, B. lra.
Qed.

Lemma Qdiv_unit (a c : Q) : 0 < c -> - c <= a <= c -> unit_range (a / c).
Proof.
  unfold unit_range. intros Hc [Hlo Hhi]. split.
  - apply Qle_shift_div_l; [assumption | lra].
  - apply Qle_shift_div_r; [assumption | lra].
Qed.

Lemma inject_nat_pos (n : nat) : (0 < n)%nat -> 0 < inject_Z (Z.of_nat n).
Proof. intros Hn. change 0 with (inject_Z 0). rewrite <- Zlt_Qlt. lia. Qed.

Lemma inject_nat_succ (n : nat) :
  inject_Z (Z.of_nat (S n)) == inject_Z (Z.of_nat n) + 1.
Proof. rewrite Nat2Z.inj_succ, <- Z.add_1_r, inject_Z_plus. reflexivity. Qed.

Lemma i16_sample_bounded (fl : Q -> Q) `{Rounding fl} (v : Z) :
  (-32768 <= v <= 32767)%Z -> unit_range (fl (fl (inject_Z v) / 32768)).
Proof.
  intros Hv.
  assert (E : fl (inject_Z v) / 32768 == inject_Z v / 32768)
    by (rewrite (fl_int v) by lia; reflexivity).
  assert (U : unit_range (fl (inject_Z v / 32768))).
  { apply fl_unit; [assumption|]. apply Qdiv_unit; [reflexivity|].
    assert (Hlo : inject_Z (-32768) <= inject_Z v) by (rewrite <- Zle_Qle; lia).
    assert (Hhi : inject_Z v <= inject_Z 32767) by (rewrite <- Zle_Qle; lia).
    change (inject_Z (-32768)) with (-32768) in Hlo.
    change (inject_Z 32767) with 32767 in Hhi. lra. }
  unfold unit_range in *. rewrite (fl_proper _ _ E). assumption.
Qed.

Lemma average_frames_bounded (fl : Q -> Q) `{Rounding fl} (c : nat) (samples : list Q) :
  (Z.of_nat c <= 2 ^ 24)%Z ->
  Forall unit_range samples ->
  forall acc idx, (idx < c)%nat ->
  - inject_Z (Z.of_nat idx) <= acc <= inject_Z (Z.of_nat idx) ->
  Forall unit_range (average_frames fl c samples acc idx).
Proof.
  intros Hc Hs. induction Hs as [|v rest Hv Hrest IH]; intros acc idx Hidx Hacc;
    cbn [average_frames]; [constructor|].
  assert (Hacc' : - inject_Z (Z.of_nat (S idx)) <= fl (acc + v)
                  <= inject_Z (Z.of_nat (S idx))).
  { apply (fl_bounded fl (Z.of_nat (S idx))); [lia|].
    rewrite inject_nat_succ. unfold unit_range in Hv. lra. }
  destruct (Nat.eqb_spec (S idx) c) as [E|E].
  - subst c. constructor.
    + assert (Ec : fl (acc + v) / fl (inject_Z (Z.of_nat (S idx)))
                   == fl (acc + v) / inject_Z (Z.of_nat (S idx)))
        by (rewrite (fl_int (Z.of_nat (S idx))) by lia; reflexivity).
      unfold unit_range. rewrite (fl_proper _ _ Ec). apply fl_unit; [assumption|].
      apply Qdiv_unit; [apply inject_nat_pos; lia | assumption].
    + apply IH; [lia|]. change (inject_Z (Z.of_nat 0)) with 0. lra.
  - apply IH; [lia | exact Hacc'].
Qed.

Lemma decode_i16_mono_bounded (fl : Q -> Q) `{Rounding fl} (bytes : list Z) (c : nat) :
  Forall byte_range bytes -> (Z.of_nat c <= 2 ^ 24)%Z ->
  Forall unit_range (decode_i16_mono fl bytes c).
Proof.
  intros Hb Hc.
  assert (Hs : Forall unit_range
                 (map (fun c => fl (fl (inject_Z (i16_from_le_bytes (fst c) (snd c))) / 32768))
                    (chunks_exact2 bytes))).
  { apply Forall_map. eapply Forall_impl; [|apply chunks_exact2_forall; exact Hb].
    intros [b0 b1] [H0 H1]. apply i16_sample_bounded; [assumption|].
    apply i16_from_le_bytes_range; assumption. }
  unfold decode_i16_mono. destruct c as [|[|c']]; [constructor | exact Hs |].
  apply average_frames_bounded; auto; [lia|]. change (inject_Z (Z.of_nat 0)) with 0. lra.
Qed.

Lemma nth_forall (P : Q -> Prop) (l : list Q) (j : nat) (d : Q) :
  Forall P l -> P d -> P (nth j l d).
Proof.
  intros Hl Hd. destruct (Nat.lt_ge_cases j (length l)) as [Hj|Hj].
  - rewrite Forall_forall in Hl. apply Hl, nth_In, Hj.
  - rewrite nth_overflow by exact Hj. exact Hd.
Qed.

Lemma column_sum_bounded (fl : Q -> Q) `{Rounding fl} (D : list (list Q)) (j : nat) :
  (Z.of_nat (length D) <= 2 ^ 24)%Z -> Forall (Forall unit_range) D ->
  - inject_Z (Z.of_nat (length D)) <= column_sum fl D j <= inject_Z (Z.of_nat (length D)).
Proof.
  intros Hlen HD. unfold column_sum.
  assert (G : forall (E : list (list Q)) acc (k : nat),
             (Z.of_nat (k + length E) <= 2 ^ 24)%Z -> Forall (Forall unit_range) E ->
             - inject_Z (Z.of_nat k) <= acc <= inject_Z (Z.of_nat k) ->
             - inject_Z (Z.of_nat (k + length E))
             <= fold_left (fun acc stream => fl (acc + nth j stream 0)) E acc
             <= inject_Z (Z.of_nat (k + length E))).
  { induction E as [|s E IH]; intros acc k Hk HE Hacc; cbn [fold_left length] in Hk |- *.
    - rewrite Nat.add_0_r. assumption.
    - rewrite Forall_cons_iff in HE. destruct HE as [Hs HE].
      replace (k + S (length E))%nat with (S k + length E)%nat by lia.
      apply IH; [lia | assumption |].
      apply (fl_bounded fl (Z.of_nat (S k))); [lia|].
      pose proof (nth_forall _ s j 0 Hs) as Hn. unfold unit_range in Hn.
      rewrite inject_nat_succ. lra. }
  apply (G D 0 0%nat); [simpl; lia | assumption | change (inject_Z (Z.of_nat 0)) with 0; lra].
Qed.

Lemma mix_per_buffer_bounded (fl : Q -> Q) `{Rounding fl} (D : list (list Q)) :
  (Z.of_nat (length D) <= 2 ^ 24)%Z -> (forall s, In s D -> s <> []) ->
  Forall (Forall unit_range) D -> Forall unit_range (mix_per_buffer fl D).
Proof.
  intros Hlen Hne HD.
  destruct D as [|s0 [|s1 D']]; [constructor | simpl; inversion HD; assumption |].
  destruct (mix_per_buffer_spec fl (s0 :: s1 :: D')) as (n & _ & _ & _ & _ & Hmix);
    [simpl; lia | assumption |].
  rewrite Hmix. apply Forall_forall. intros x Hx. apply in_map_iff in Hx.
  destruct Hx as (j & <- & _).
  assert (E : column_sum fl (s0 :: s1 :: D') j
                / fl (inject_Z (Z.of_nat (length (s0 :: s1 :: D'))))
              == column_sum fl (s0 :: s1 :: D') j
                / inject_Z (Z.of_nat (length (s0 :: s1 :: D')))).
  { rewrite (fl_int (Z.of_nat (length (s0 :: s1 :: D')))) by lia. reflexivity. }
  unfold unit_range. rewrite (fl_proper _ _ E). apply fl_unit; [assumption|].
  apply Qdiv_unit; [apply inject_nat_pos; simpl; lia|].
  apply column_sum_bounded; assumption.
Qed.

Lemma round_half_away_mono (x y : Q) :
  x <= y -> (round_half_away x <= round_half_away y)%Z.
Proof.
  intros Hxy. unfold round_half_away.
  destruct (Qle_bool 0 x) eqn:Ex; destruct (Qle_bool 0 y) eqn:Ey.
  - apply Qfloor_resp_le. lra.
  - apply Qle_bool_iff in Ex. apply Qle_bool_false_lt in Ey. lra.
  - apply Qle_bool_false_lt in Ex. apply Qle_bool_iff in Ey.
    assert (A : (Qfloor 0 <= Qfloor (- x + (1 # 2)))%Z) by (apply Qfloor_resp_le; lra).
    assert (B : (Qfloor 0 <= Qfloor (y + (1 # 2)))%Z) by (apply Qfloor_resp_le; lra).
    change (Qfloor 0) with 0%Z in A, B. lia.
  - assert (A : (Qfloor (- y + (1 # 2)) <= Qfloor (- x + (1 # 2)))%Z)
      by (apply Qfloor_resp_le; lra).
    lia.
Qed.

Lemma clamp_mono (x y : Q) : x <= y -> clamp x (-1) 1 <= clamp y (-1) 1.
Proof.
  intros Hxy.
  destruct (clamp_cases x) as [[? ->]|[[? ->]|[? ->]]];
  destruct (clamp_cases y) as [[? ->]|[[? ->]|[? ->]]]; lra.
Qed.

Lemma i16_to_le_bytes_range (v : Z) : Forall byte_range (i16_to_le_bytes v).
Proof.
  unfold i16_to_le_bytes, byte_range.
  pose proof (Z.mod_pos_bound v 65536).
  repeat constructor; Z.div_mod_to_equations; lia.
Qed.

Lemma float_to_pcm_bytes_length (fl : Q -> Q) (xs : list Q) :
  length (float_to_pcm_bytes fl xs) = (2 * length xs)%nat.
Proof.
  unfold float_to_pcm_bytes. induction xs as [|x xs IH]; [reflexivity|].
  cbn [flat_map]. rewrite length_app, IH. cbn [length]. unfold i16_to_le_bytes. cbn [length]. lia.
Qed.

Lemma float_to_pcm_bytes_range (fl : Q -> Q) (xs : list Q) :
  Forall byte_range (float_to_pcm_bytes fl xs).
Proof.
  unfold float_to_pcm_bytes. apply Forall_flat_map.
  apply Forall_forall. intros x _. apply i16_to_le_bytes_range.
Qed.

(** X1.  Decoding one buffer yields [floor(floor(B / w) / c)] samples,
    where [B] is its number of bytes, [w] the sample width (4 bytes for
    [f32], 2 for [i16]) and [c] its channel count (at least 1): the bytes
    of an incomplete sample and the samples of an incomplete frame are
    dropped. *)
Theorem decode_buffer_length (fl : Q -> Q) (f32v : Z * Z * Z * Z -> Q)
    (is_float : bool) (buffer : AudioBuffer) :
  length (decode_buffer fl f32v is_float buffer)
  = (length (data buffer) / (if is_float then 4 else 2)
     / Z.to_nat (Z.max (number_channels buffer) 1))%nat.
Proof.
  unfold decode_buffer.
  assert (Hc : (1 <= Z.to_nat (Z.max (number_channels buffer) 1))%nat) by lia.
  destruct (Z.to_nat (Z.max (number_channels buffer) 1)) as [|[|c]];
    [lia| |]; destruct is_float; unfold decode_f32_mono, decode_i16_mono;
    cbv beta iota zeta.
  - rewrite length_map, chunks_exact4_length, Nat.div_1_r. reflexivity.
  - rewrite length_map, chunks_exact2_length, Nat.div_1_r. reflexivity.
  - rewrite average_frames_length by lia.
    rewrite length_map, chunks_exact4_length, Nat.add_0_r. reflexivity.
  - rewrite average_frames_length by lia.
    rewrite length_map, chunks_exact2_length, Nat.add_0_r. reflexivity.
Qed.

(** X2.  With [f32]-like rounding, decoding an [i16] buffer whose bytes
    are in [[0, 255]] and whose channel count is at most [2^24] gives
    samples in [[-1, 1]]. *)
Theorem decode_buffer_i16_unit_range (fl : Q -> Q) `{Rounding fl}
    (f32v : Z * Z * Z * Z -> Q) (buffer : AudioBuffer) :
  Forall byte_range (data buffer) -> (number_channels buffer <= 2 ^ 24)%Z ->
  Forall unit_range (decode_buffer fl f32v false buffer).
Proof.
  intros Hb Hc. unfold decode_buffer. apply decode_i16_mono_bounded; try assumption; lia.
Qed.

Lemma decode_buffer_i16_unit_range_witness :
  Forall byte_range [0; 128; 255; 127]%Z /\ (1 <= 2 ^ 24)%Z /\
  Forall unit_range (decode_buffer exact (fun _ => 0) false
                       {| number_channels := 1; data := [0; 128; 255; 127]%Z |}).
Proof.
  assert (Hb : Forall byte_range [0; 128; 255; 127]%Z)
    by (repeat apply Forall_cons; try apply Forall_nil; unfold byte_range; lia).
  split; [exact Hb|]. split; [lia|].
  exact (decode_buffer_i16_unit_range exact (fun _ => 0)
           {| number_channels := 1; data := [0; 128; 255; 127]%Z |} Hb ltac:(cbn; lia)).
Defined.

(** X3.  With [f32]-like rounding, mixing [i16] buffers (bytes in
    [[0, 255]], at most [2^24] channels each, at most [2^24] buffers)
    gives samples in [[-1, 1]]. *)
Theorem mix_to_mono_i16_unit_range (fl : Q -> Q) `{Rounding fl}
    (f32v : Z * Z * Z * Z -> Q) (buffers : list AudioBuffer) :
  Forall (fun b => Forall byte_range (data b) /\ (number_channels b <= 2 ^ 24)%Z) buffers ->
  (Z.of_nat (length buffers) <= 2 ^ 24)%Z ->
  Forall unit_range (mix_to_mono fl f32v buffers false).
Proof.
  intros Hb Hn. unfold mix_to_mono. apply mix_per_buffer_bounded; [assumption | | |].
  - pose proof (filter_length_le is_nonempty (map (decode_buffer fl f32v false) buffers)) as L.
    rewrite length_map in L. lia.
  - apply filter_nonempty_spec.
  - apply Forall_forall. intros s Hs. apply filter_In in Hs. destruct Hs as [Hs _].
    apply in_map_iff in Hs. destruct Hs as (b & <- & Hb').
    rewrite Forall_forall in Hb. destruct (Hb b Hb') as [Hd Hc].
    unfold decode_buffer. apply decode_i16_mono_bounded; try assumption; lia.
Qed.

Lemma mix_to_mono_i16_unit_range_witness :
  Forall (fun b => Forall byte_range (data b) /\ (number_channels b <= 2 ^ 24)%Z)
    [{| number_channels := 1; data := [0; 128]%Z |};
     {| number_channels := 2; data := [255; 127; 0; 0]%Z |}] /\
  (Z.of_nat 2 <= 2 ^ 24)%Z /\
  Forall unit_range (mix_to_mono exact (fun _ => 0)
    [{| number_channels := 1; data := [0; 128]%Z |};
     {| number_channels := 2; data := [255; 127; 0; 0]%Z |}] false).
Proof.
  assert (Hb : Forall (fun b => Forall byte_range (data b) /\ (number_channels b <= 2 ^ 24)%Z)
    [{| number_channels := 1; data := [0; 128]%Z |};
     {| number_channels := 2; data := [255; 127; 0; 0]%Z |}]).
  { repeat apply Forall_cons; try apply Forall_nil; cbn [data number_channels];
      (split; [repeat apply Forall_cons; try apply Forall_nil; unfold byte_range; lia | lia]). }
  split; [exact Hb|]. split; [lia|].
  exact (mix_to_mono_i16_unit_range exact (fun _ => 0) _ Hb ltac:(cbn; lia)).
Defined.

(** X4.  With [f32]-like rounding, every sample is quantized to an
    integer in [[-32767, 32767]] (never [-32768]), and quantization is
    monotone: a larger sample never gives a smaller integer. *)
Theorem quantize_sample_range_mono (fl : Q -> Q) `{Rounding fl} :
  (forall x, (-32767 <= quantize_sample fl x <= 32767)%Z) /\
  (forall x y, x <= y -> (quantize_sample fl x <= quantize_sample fl y)%Z).
Proof.
  split.
  - intros x. unfold quantize_sample.
    set (a := clamp (fl (x * OUTPUT_GAIN)) (-1) 1).
    assert (Ha : -1 <= a <= 1) by apply clamp_bounds.
    destruct (fl_bounded fl 32767 (a * inject_Z I16_MAX)) as [A B];
      [lia | unfold I16_MAX; change (inject_Z 32767) with 32767; lra |].
    change (inject_Z 32767) with 32767 in A, B.
    pose proof (round_half_away_le (fl (a * inject_Z I16_MAX)) 32767) as R.
    change (inject_Z 32767) with 32767 in R.
    unfold sat_i16. destruct R; [lra | lra | lia].
  - intros x y Hxy. unfold quantize_sample, sat_i16.
    assert (M : fl (clamp (fl (x * OUTPUT_GAIN)) (-1) 1 * inject_Z I16_MAX)
                <= fl (clamp (fl (y * OUTPUT_GAIN)) (-1) 1 * inject_Z I16_MAX)).
    { apply fl_mono. unfold I16_MAX.
      apply Qmult_le_compat_r; [| unfold Qle; simpl; lia].
      apply clamp_mono, fl_mono. unfold OUTPUT_GAIN.
      apply Qmult_le_compat_r; [assumption | unfold Qle; simpl; lia]. }
    apply round_half_away_mono in M. lia.
Qed.

Lemma quantize_sample_range_mono_witness :
  Rounding exact /\
  (forall x, (-32767 <= quantize_sample exact x <= 32767)%Z) /\
  (forall x y, x <= y -> (quantize_sample exact x <= quantize_sample exact y)%Z).
Proof.
  split; [exact exact_rounding|].
  exact (quantize_sample_range_mono exact).
Defined.

(** X5.  [float_to_pcm_bytes] writes two bytes per sample, each in
    [[0, 255]], and the helper's own [i16] decoder (one channel) reads
    them back as [q / 32768], where [q] is the quantized sample. *)
Theorem float_to_pcm_bytes_decode (fl : Q -> Q) (xs : list Q) :
  length (float_to_pcm_bytes fl xs) = (2 * length xs)%nat /\
  Forall byte_range (float_to_pcm_bytes fl xs) /\
  decode_i16_mono fl (float_to_pcm_bytes fl xs) 1
  = map (fun x => fl (fl (inject_Z (quantize_sample fl x)) / 32768)) xs.
Proof.
  split; [apply float_to_pcm_bytes_length|].
  split; [apply float_to_pcm_bytes_range|].
  unfold decode_i16_mono, float_to_pcm_bytes. cbv beta iota zeta.
  induction xs as [|x xs IH]; [reflexivity|].
  simpl flat_map.
  assert (Hq : (-32768 <= quantize_sample fl x <= 32767)%Z)
    by (unfold quantize_sample, sat_i16; lia).
  destruct (i16_le_bytes_roundtrip _ Hq) as [_ Hv].
  unfold i16_to_le_bytes in *. simpl app. simpl chunks_exact2. simpl map.
  rewrite IH. simpl fst. simpl snd. rewrite Hv. reflexivity.
Qed.

Lemma interpolate_exact_between (input : list Q) (ratio lo hi : Q) (index : nat) :
  0 < ratio -> Forall (fun x => lo <= x <= hi) input ->
  (base_index_at exact ratio index < length input)%nat ->
  lo <= interpolate exact input ratio index <= hi.
Proof.
  intros Hr Hin Hb. unfold interpolate, base_index_at, source_pos, exact in *.
  cbv zeta.
  set (pos := inject_Z (Z.of_nat index) * ratio) in *.
  assert (Hpos : 0 <= pos).
  { apply Qmult_le_0_compat; [|lra].
    change 0 with (inject_Z 0). rewrite <- Zle_Qle. lia. }
  assert (Hf0 : (0 <= Qfloor pos)%Z).
  { change 0%Z with (Qfloor 0). apply Qfloor_resp_le. assumption. }
  set (b := Z.to_nat (Qfloor pos)) in *.
  assert (Eb : inject_Z (Z.of_nat b) = inject_Z (Qfloor pos))
    by (unfold b; rewrite Z2Nat.id by assumption; reflexivity).
  rewrite Eb.
  pose proof (Qfloor_le pos) as F1. pose proof (Qlt_floor pos) as F2.
  rewrite inject_Z_plus in F2. change (inject_Z 1) with 1 in F2.
  set (f := pos - inject_Z (Qfloor pos)).
  assert (Hf : 0 <= f /\ f < 1) by (unfold f; lra).
  rewrite Forall_forall in Hin.
  assert (Ha : lo <= nth b input 0 <= hi) by (apply Hin, nth_In, Hb).
  assert (Hn : lo <= nth (Nat.min (b + 1) (length input - 1)) input 0 <= hi)
    by (apply Hin, nth_In; lia).
  set (a := nth b input 0) in *.
  set (n := nth (Nat.min (b + 1) (length input - 1)) input 0) in *.
  assert (P1 : 0 <= (a - lo) * (1 - f)) by (apply Qmult_le_0_compat; lra).
  assert (P2 : 0 <= (n - lo) * f) by (apply Qmult_le_0_compat; lra).
  assert (P3 : 0 <= (hi - a) * (1 - f)) by (apply Qmult_le_0_compat; lra).
  assert (P4 : 0 <= (hi - n) * f) by (apply Qmult_le_0_compat; lra).
  split; lra.
Qed.

(** X6.  In exact arithmetic, resampling never leaves the range of its
    input: if every input sample lies in [[lo, hi]], so does every output
    sample (linear interpolation between two input samples). *)
Theorem resample_exact_within_input_range (input : list Q) (source_rate lo hi : Q) :
  Forall (fun x => lo <= x <= hi) input ->
  Forall (fun x => lo <= x <= hi) (resample_to_output_rate exact input source_rate).
Proof.
  intros Hin. unfold resample_to_output_rate.
  destruct (is_nonempty input && negb (Qle_bool source_rate 0)) eqn:E; [|constructor].
  destruct (Qlt_bool _ 1); [assumption|].
  apply andb_true_iff in E. destruct E as [_ E].
  apply negb_true_iff, Qle_bool_false_lt in E.
  cbv zeta.
  assert (Hr : 0 < exact (source_rate / OUTPUT_SAMPLE_RATE)).
  { unfold exact, OUTPUT_SAMPLE_RATE. apply Qlt_shift_div_l; [reflexivity | lra]. }
  set (ratio := exact (source_rate / OUTPUT_SAMPLE_RATE)) in *.
  destruct (resample_loop_spec exact input ratio (resample_output_len exact input ratio) 0)
    as (k & _ & Heq & Hb & _).
  rewrite Heq. apply Forall_forall. intros x Hx. apply in_map_iff in Hx.
  destruct Hx as (j & <- & Hj). apply in_seq in Hj.
  apply interpolate_exact_between; [assumption | assumption |].
  apply (Hb j). lia.
Qed.

Lemma resample_exact_within_input_range_witness :
  Forall (fun x => 0 <= x <= 1) [0; 1 # 2; 1] /\
  Forall (fun x => 0 <= x <= 1) (resample_to_output_rate exact [0; 1 # 2; 1] 48000).
Proof.
  assert (H : Forall (fun x => 0 <= x <= 1) [0; 1 # 2; 1])
    by (repeat apply Forall_cons; try apply Forall_nil; lra).
  split; [exact H|].
  exact (resample_exact_within_input_range [0; 1 # 2; 1] 48000 0 1 H).
Defined.





End CodecExtra.

(* ================================================================== *)
(** ** Further properties of the worker supervisor *)

Module SessionExtra.

Import Session Worker Samples SessionFacts Events.

Lemma rstring_eqb_true (a b : rstring) : rstring_eqb a b = true -> a = b.
Proof. unfold rstring_eqb. destruct (list_eq_dec Z.eq_dec a b); congruence. Qed.

Lemma rstring_eqb_refl (a : rstring) : rstring_eqb a a = true.
Proof. unfold rstring_eqb. destruct (list_eq_dec Z.eq_dec a a); congruence. Qed.

Lemma path_eqb_refl (p : path) : path_eqb p p = true.
Proof. unfold path_eqb. destruct (list_eq_dec (list_eq_dec Z.eq_dec) p p); congruence. Qed.

Lemma AppStatus_eqb_true (a b : AppStatus) : AppStatus_eqb a b = true <-> a = b.
Proof. destruct a, b; simpl; split; congruence. Qed.

Lemma AppStatus_eqb_false (a b : AppStatus) : AppStatus_eqb a b = false <-> a <> b.
Proof. destruct a, b; simpl; split; congruence. Qed.

Lemma str_len_fold (a : rstring) (n : Z) :
  fold_right (fun c n => (len_utf8 c + n)%Z) n a
  = (fold_right (fun c n => (len_utf8 c + n)%Z) 0 a + n)%Z.
Proof. induction a as [|c a IH]; simpl; [reflexivity|]. rewrite IH. lia. Qed.

Lemma str_len_app (a b : rstring) : str_len (a ++ b) = (str_len a + str_len b)%Z.
Proof. unfold str_len. rewrite fold_right_app, str_len_fold. reflexivity. Qed.

Lemma str_len_nonneg (s : rstring) : (0 <= str_len s)%Z.
Proof.
  unfold str_len. induction s as [|c s IH]; cbn [fold_right]; [lia|].
  assert (0 <= len_utf8 c)%Z
    by (unfold len_utf8; destruct (c <? 128)%Z, (c <? 2048)%Z, (c <? 65536)%Z; lia).
  lia.
Qed.

Lemma partial_not_status : rstring_eqb (lit "partial") (lit "status") = false.
Proof. reflexivity. Qed.

Lemma partial_is_partial : rstring_eqb (lit "partial") (lit "partial") = true.
Proof. reflexivity. Qed.

(** One [partial] event appends the trimmed text on a new line. *)
Lemma partial_step (t : rstring) (w : World) :
  exists w', handle_parsed_event (partial_event t) w = (Ok tt, w') /\
    transcript (state w') =
      (if non_blank t
       then (if negb (is_empty (transcript (state w)))
             then transcript (state w) ++ [10] else transcript (state w)) ++ trim t
       else transcript (state w)).
Proof.
  unfold handle_parsed_event, partial_event. cbn [event_type text].
  rewrite partial_not_status, partial_is_partial. unfold non_blank.
  destruct (is_empty (trim t)); cbn [negb].
  - eexists. split; reflexivity.
  - unfold update_state, bind, write_state, emit_state. eexists. split; [reflexivity|].
    cbn [state]. destruct (AppStatus_eqb _ Recording); reflexivity.
Qed.

Lemma partial_events_fold (texts : list rstring) (w : World) :
  exists w', handle_events (map partial_event texts) w = (Ok tt, w') /\
    transcript (state w') =
      fold_left (fun T t => if non_blank t
                            then (if negb (is_empty T) then T ++ [10] else T) ++ trim t
                            else T) texts (transcript (state w)).
Proof.
  revert w. induction texts as [|t texts IH]; intros w.
  - exists w. split; reflexivity.
  - cbn [map handle_events]. unfold bind.
    destruct (partial_step t w) as (w1 & E1 & T1). rewrite E1.
    destruct (IH w1) as (w2 & E2 & T2). exists w2. split; [exact E2|].
    rewrite T2, T1. reflexivity.
Qed.

Lemma join_lines_cons (y : rstring) (ys : list rstring) :
  join_lines (y :: ys) = y ++ flat_map (fun z => 10 :: z) ys.
Proof.
  revert y. induction ys as [|z zs IH]; intros y.
  - simpl. rewrite app_nil_r. reflexivity.
  - change (join_lines (y :: z :: zs)) with (y ++ [10] ++ join_lines (z :: zs)).
    rewrite IH. reflexivity.
Qed.

Lemma non_blank_trim (t : rstring) : non_blank t = true -> trim t <> [].
Proof. unfold non_blank. intros H E. rewrite E in H. discriminate. Qed.

Lemma partial_fold_nonempty (xs : list rstring) (T : rstring) :
  T <> [] ->
  fold_left (fun T t => if non_blank t
                        then (if negb (is_empty T) then T ++ [10] else T) ++ trim t
                        else T) xs T
  = T ++ flat_map (fun z => 10 :: z) (map trim (filter non_blank xs)).
Proof.
  revert T. induction xs as [|x xs IH]; intros T HT.
  - simpl. rewrite app_nil_r. reflexivity.
  - cbn [fold_left filter]. destruct (non_blank x) eqn:Hx.
    + destruct T as [|c T']; [congruence|]. cbn [is_empty negb].
      rewrite IH by (destruct (c :: T'); discriminate).
      cbn [map flat_map]. rewrite <- !app_assoc. reflexivity.
    + apply IH. assumption.
Qed.

Lemma partial_fold_empty (xs : list rstring) :
  fold_left (fun T t => if non_blank t
                        then (if negb (is_empty T) then T ++ [10] else T) ++ trim t
                        else T) xs []
  = join_lines (map trim (filter non_blank xs)).
Proof.
  induction xs as [|x xs IH]; [reflexivity|].
  cbn [fold_left filter]. destruct (non_blank x) eqn:Hx; [|exact IH].
  cbn [is_empty negb app map]. rewrite partial_fold_nonempty by (apply non_blank_trim; assumption).
  rewrite join_lines_cons. reflexivity.
Qed.

(** X8.  Starting from an empty transcript, a sequence of [partial]
    events leaves as transcript the trimmed texts of the non-blank events,
    in order, separated by newlines (whatever the status). *)
Theorem partial_events_join (texts : list rstring) (w : World) :
  transcript (state w) = [] ->
  exists w', handle_events (map partial_event texts) w = (Ok tt, w') /\
    transcript (state w') = join_lines (map trim (filter non_blank texts)).
Proof.
  intros H. destruct (partial_events_fold texts w) as (w' & E & T).
  exists w'. split; [exact E|]. rewrite T, H. apply partial_fold_empty.
Qed.

Lemma partial_events_join_witness :
  transcript (state (sample_world Ready [] None [])) = [] /\
  exists w', handle_events (map partial_event [lit " hello "; lit "  "; lit "world"])
               (sample_world Ready [] None []) = (Ok tt, w') /\
    transcript (state w') =
      join_lines (map trim (filter non_blank [lit " hello "; lit "  "; lit "world"])).
Proof.
  split; [reflexivity|].
  exact (partial_events_join [lit " hello "; lit "  "; lit "world"]
           (sample_world Ready [] None []) eq_refl).
Defined.

(** X9.  No worker event shortens the transcript: its length in bytes
    never decreases. *)
Theorem handle_parsed_event_transcript_grows (event : WorkerEvent) (w : World) :
  (str_len (transcript (state w))
   <= str_len (transcript (state (snd (handle_parsed_event event w)))))%Z.
Proof.
  unfold handle_parsed_event.
  destruct (rstring_eqb (event_type event) (lit "status")).
  { destruct (message event); unfold update_state, bind, write_state, emit_state, ret;
      cbn [snd state]; [destruct (AppStatus_eqb _ Recording)|]; cbn [transcript set_status_message]; lia. }
  destruct (rstring_eqb (event_type event) (lit "partial")).
  { destruct (text event) as [t|]; [|unfold ret; cbn [snd]; lia].
    destruct (is_empty (trim t)); [unfold ret; cbn [snd]; lia|].
    unfold update_state, bind, write_state, emit_state. cbn [snd state].
    assert (G : forall T : rstring,
               (str_len T <= str_len ((if negb (is_empty T) then T ++ [10] else T) ++ trim t))%Z).
    { intros T. rewrite str_len_app. pose proof (str_len_nonneg (trim t)).
      destruct (negb (is_empty T)); [rewrite str_len_app; pose proof (str_len_nonneg [10])|]; lia. }
    destruct (AppStatus_eqb _ Recording); cbn [transcript set_status_message set_transcript]; apply G. }
  destruct (rstring_eqb (event_type event) (lit "final")).
  { destruct (text event) as [t|]; [|unfold ret; cbn [snd]; lia].
    unfold update_state, bind, write_state, emit_state. cbn [snd state].
    destruct (negb (is_empty (trim t)) && (str_len (transcript (state w)) <? str_len t)%Z) eqn:E;
      cbn [transcript set_transcript]; [|lia].
    apply andb_true_iff in E. destruct E as [_ E]. apply Z.ltb_lt in E. lia. }
  destruct (rstring_eqb (event_type event) (lit "error")).
  { unfold update_state, bind, write_state, emit_state, perform.
    cbn [snd state transcript set_worker set_error_message set_status_message set_status].
    lia. }
  unfold ret. cbn [snd]. lia.
Qed.

Ltac find_in := repeat (try (left; reflexivity); right).

(** X10.  When [start_recording] succeeds, the session was [Ready] or
    [Idle] and the interpreter and the model were present once the
    scripts were written; the worker was spawned with the interpreter and
    the arguments of [worker_args], and the session is now [Recording],
    holds the new worker, and starts with an empty transcript, no error
    and no saved path. *)
Theorem start_recording_success (env : StartEnv) (w w' : World) :
  start_recording env w = (Ok tt, w') ->
  let s := state w in
  let fs1 := fs_after_scripts s (fs w) in
  (status s = Ready \/ status s = Idle) /\
  path_exists fs1 (venv_python s) = true /\ model_ready fs1 (model_path s) = true /\
  exists pid, spawn_result env = Some pid /\ floating_window_ok env = true /\
    status (state w') = Recording /\ status_message (state w') = lit "Recording" /\
    worker (state w') = Some {| child := pid; stdin := Some pid; stdout_task := Some 1%nat;
                               stderr_task := Some 2%nat |} /\
    transcript (state w') = [] /\ error_message (state w') = None /\
    last_saved_path (state w') = None /\
    In (SpawnWorker (venv_python s) (worker_args env (worker_script s) (language s)
                                       (model_path s) (selected_mic_device s))) (log w').
Proof.
  unfold start_recording, ensure_scripts, write_if_changed, fs_after_scripts. unfold_M. M_cases_fs.
  all: intros H; try discriminate.
  injection H as <-. cbv zeta.
  apply negb_false_iff in Heqb1, Heqb2, Heqb3.
  split; [destruct (status (state w)); simpl in Heqb1; try discriminate; auto|].
  split; [assumption|]. split; [assumption|].
  exists n. repeat split; auto. cbn [log]. find_in.
Qed.

Lemma start_recording_success_witness :
  start_recording sample_start_env (sample_world Ready [] None installed_fs) =
    (Ok tt, snd (start_recording sample_start_env (sample_world Ready [] None installed_fs))) /\
  exists pid, spawn_result sample_start_env = Some pid /\
    status (state (snd (start_recording sample_start_env
                          (sample_world Ready [] None installed_fs)))) = Recording.
Proof.
  assert (H : start_recording sample_start_env (sample_world Ready [] None installed_fs) =
    (Ok tt, snd (start_recording sample_start_env (sample_world Ready [] None installed_fs))))
    by (vm_compute; reflexivity).
  split; [exact H|].
  destruct (start_recording_success sample_start_env _ _ H)
    as (_ & _ & _ & pid & Hs & _ & Hst & _).
  exists pid. split; [exact Hs | exact Hst].
Defined.

(** X11.  [start_recording] can fail after it has installed the worker:
    when every check passes and the worker is spawned but the floating
    window cannot be created, the command returns the window's error while
    the session is [Recording] with the spawned worker. *)
Theorem start_recording_window_failure (env : StartEnv) (w : World) (pid : nat) :
  let s := state w in
  let fs1 := fs_after_scripts s (fs w) in
  scripts_ok env = true -> (status s = Ready \/ status s = Idle) ->
  path_exists fs1 (venv_python s) = true -> model_ready fs1 (model_path s) = true ->
  spawn_result env = Some pid -> floating_window_ok env = false ->
  exists w', start_recording env w = (Err (floating_window_error env), w') /\
    status (state w') = Recording /\
    worker (state w') = Some {| child := pid; stdin := Some pid; stdout_task := Some 1%nat;
                               stderr_task := Some 2%nat |} /\
    In (SpawnWorker (venv_python s) (worker_args env (worker_script s) (language s)
                                       (model_path s) (selected_mic_device s))) (log w').
Proof.
  cbv zeta. unfold fs_after_scripts. intros Hsc Hst Hv Hm Hsp Hfw.
  unfold scripts_ok in Hsc.
  apply andb_prop in Hsc as [Hsc Hw2]. apply andb_prop in Hsc as [Hsc Hw1].
  destruct (bootstrap_write env) eqn:Eb; try discriminate Hw1.
  destruct (worker_write env) eqn:Ew; try discriminate Hw2.
  unfold start_recording, ensure_scripts, write_if_changed. unfold_M.
  cbn -[add_path create_dir_all path_exists model_ready lit display worker_args].
  rewrite Hsc, Eb, Ew.
  cbn -[add_path create_dir_all path_exists model_ready lit display worker_args].
  assert (Hr : AppStatus_eqb (status (state w)) Recording = false)
    by (destruct Hst as [-> | ->]; reflexivity).
  assert (Hri : (AppStatus_eqb (status (state w)) Ready
                 || AppStatus_eqb (status (state w)) Idle) = true)
    by (destruct Hst as [-> | ->]; reflexivity).
  repeat progress (
    cbn -[add_path create_dir_all path_exists model_ready lit display worker_args];
    rewrite ?Hr, ?Hri, ?Hv, ?Hm, ?Hsp, ?Hfw).
  eexists. split; [reflexivity|]. cbn [state log status worker set_transcript
    set_last_saved_path set_error_message set_status_message set_status set_worker].
  repeat split. find_in.
Qed.

Lemma start_recording_window_failure_witness :
  scripts_ok sample_window_failure_env = true /\
  floating_window_ok sample_window_failure_env = false /\
  exists w', start_recording sample_window_failure_env (sample_world Ready [] None installed_fs)
               = (Err (lit "window unavailable"), w') /\
    status (state w') = Recording.
Proof.
  destruct (start_recording_window_failure sample_window_failure_env
              (sample_world Ready [] None installed_fs) 7 eq_refl
              (or_introl eq_refl) ltac:(vm_compute; reflexivity)
              ltac:(vm_compute; reflexivity) eq_refl eq_refl)
    as (w' & E & Hst & _).
  split; [reflexivity|]. split; [reflexivity|].
  exists w'. split; [exact E | exact Hst].
Defined.

(** X12.  A selected microphone takes precedence over
    [WHISPERBAR_MIC_DEVICE]: with [Some m] selected, the arguments are
    those without any microphone, followed by [--mic-device m] when [m] is
    not blank; a blank selection therefore also discards the environment
    variable. *)
Theorem worker_args_selected_mic (env : StartEnv) (worker_script : path)
    (language : rstring) (model_path : path) (m : rstring) :
  worker_args env worker_script language model_path (Some m)
  = worker_args {| scripts_dir_ok := scripts_dir_ok env;
                   bootstrap_write := bootstrap_write env;
                   worker_write := worker_write env; current_exe := current_exe env;
                   audio_device_var := audio_device_var env; mic_device_var := None;
                   spawn_result := spawn_result env;
                   floating_window_ok := floating_window_ok env;
                   floating_window_error := floating_window_error env |}
      worker_script language model_path None
    ++ (if non_blank m then [lit "--mic-device"; m] else []).
Proof.
  unfold worker_args. cbn [current_exe audio_device_var mic_device_var].
  rewrite app_nil_r, <- !app_assoc. reflexivity.
Qed.

End SessionExtra.

Module CommandsExtra.

Import Session Worker Samples SessionFacts SessionExtra Commands.

Lemma model_path_or_default_find (app : path) (model_id : rstring) (m : Models.ModelSpec) :
  Models.find_model model_id = Some m ->
  model_path_or_default app model_id = join app "models" ++ [Models.folder m].
Proof. intros H. unfold model_path_or_default, Models.model_path. rewrite H. reflexivity. Qed.

Lemma default_model_consistent (app : path) :
  exists m, Models.find_model Models.default_model_id = Some m /\
            model_path_or_default app Models.default_model_id = join app "models" ++ [Models.folder m].
Proof. eexists. split; [reflexivity|]. apply model_path_or_default_find. reflexivity. Qed.

Lemma ignore_eq {A} (m : AM A) (aw : AppWorld) : ignore m aw = (Ok tt, snd (m aw)).
Proof. unfold ignore. destruct (m aw). reflexivity. Qed.

Lemma save_settings_state (env : SettingsEnv) (inner : StateInner) (aw : AppWorld) :
  state (world (snd (save_settings env inner aw))) = state (world aw).
Proof.
  unfold save_settings, save_settings_to_dir.
  destruct (create_dir_ok env), (settings_write env); reflexivity.
Qed.

Lemma save_settings_load (env : SettingsEnv) (inner : StateInner) (aw : AppWorld) :
  create_dir_ok env = true -> write_ok env = true ->
  load_settings (settings_files (snd (save_settings env inner aw))) (app_data_dir inner)
  = Some {| settings_language := Some (language inner);
            settings_selected_model_id := Some (selected_model_id inner);
            settings_selected_mic_device := selected_mic_device inner |}.
Proof.
  intros Hc Hw. unfold save_settings, save_settings_to_dir. rewrite Hc.
  unfold write_ok in Hw. destruct (settings_write env); try discriminate Hw.
  unfold load_settings, lookup_settings. cbn [negb snd settings_files find fst app_data_dir].
  rewrite path_eqb_refl. reflexivity.
Qed.

Ltac am_unfold :=
  cbv [bindA lift read_stateA retA throwA read_state update_state bind ret
       write_state emit_state];
  cbn [fst snd world state fs log settings_files];
  rewrite ?ignore_eq;
  cbn [fst snd world state fs log settings_files];
  rewrite ?save_settings_state.

Lemma max_by_key_split {A} (key : A -> Z) (first : A) (rest : list A) :
  exists pre best post, first :: rest = pre ++ best :: post /\
    fold_left (fun best x => if Z.leb (key best) (key x) then x else best) rest first = best /\
    (forall e, In e pre -> key e <= key best) /\ (forall e, In e post -> key e < key best).
Proof.
  induction rest as [|x rest IH] using rev_ind.
  - exists [], first, []. repeat split; intros e [].
  - destruct IH as (pre & best & post & Eq & Ef & Hpre & Hpost).
    rewrite fold_left_app. cbn [fold_left]. rewrite Ef.
    destruct (Z.leb_spec (key best) (key x)).
    + exists (pre ++ best :: post), x, [].
      split; [rewrite app_comm_cons, Eq, <- app_assoc; reflexivity|].
      split; [reflexivity|]. split; [|intros e []].
      intros e He. apply in_app_or in He.
      destruct He as [He|[<-|He]]; [specialize (Hpre e He) | | specialize (Hpost e He)]; lia.
    + exists pre, best, (post ++ [x]).
      split; [rewrite app_comm_cons, Eq, <- app_assoc; reflexivity|].
      split; [reflexivity|]. split; [assumption|].
      intros e He. apply in_app_or in He.
      destruct He as [He|[<-|[]]]; [apply Hpost; assumption | lia].
Qed.

Lemma choose_default_mic_some (to_lowercase : rstring -> rstring)
    (devices : list Audio.AudioDeviceOption) :
  devices <> [] -> exists pre d post, devices = pre ++ d :: post /\
    Audio.choose_default_mic to_lowercase devices = Some (Audio.id d) /\
    (forall e, In e pre -> Audio.score_mic to_lowercase (Audio.name e)
                           <= Audio.score_mic to_lowercase (Audio.name d)) /\
    (forall e, In e post -> Audio.score_mic to_lowercase (Audio.name e)
                            < Audio.score_mic to_lowercase (Audio.name d)).
Proof.
  intros Hne. destruct devices as [|first rest]; [congruence|].
  destruct (max_by_key_split (fun device => Audio.score_mic to_lowercase (Audio.name device))
              first rest) as (pre & best & post & Eq & Ef & Hpre & Hpost).
  exists pre, best, post. split; [exact Eq|]. split; [|split; assumption].
  unfold Audio.choose_default_mic, Audio.max_by_key. rewrite Ef. reflexivity.
Qed.

Lemma existsb_id_in (devices : list Audio.AudioDeviceOption) (m : rstring) :
  existsb (fun device => rstring_eqb (Audio.id device) m) devices = true <->
  In m (map Audio.id devices).
Proof.
  rewrite existsb_exists, in_map_iff. split.
  - intros (d & Hd & E). exists d. split; [apply rstring_eqb_true, E | exact Hd].
  - intros (d & E & Hd). exists d. split; [exact Hd|]. rewrite E. apply rstring_eqb_refl.
Qed.

(** X13.  [StateInner::new] starts [Ready] with no worker, no transcript
    and no error, in [app_data_dir]; whatever the settings file holds, the
    language is [en] or [pt-BR] and the model path is the folder of a
    catalogue model; the message says whether that model is installed. *)
Theorem new_state_invariants (app : path) (fs0 : list path)
    (files : list (path * PersistedSettings)) :
  let s := new_state app fs0 files in
  status s = Ready /\ worker s = None /\ transcript s = [] /\ error_message s = None /\
  app_data_dir s = app /\
  (language s = lit "en" \/ language s = lit "pt-BR") /\ model_consistent s /\
  status_message s = (if is_model_installed fs0 (model_path s) then lit "Ready"
                      else lit "Model not installed. Select a model and click Install Model.").
Proof.
  cbv zeta. unfold new_state. cbv zeta.
  match goal with
  | |- context [if negb (is_model_installed fs0 (model_path ?s1)) then _ else _] =>
      set (S1 := s1)
  end.
  assert (P : status S1 = Ready /\ worker S1 = None /\ transcript S1 = [] /\
              error_message S1 = None /\ app_data_dir S1 = app /\
              (language S1 = lit "en" \/ language S1 = lit "pt-BR") /\ model_consistent S1 /\
              status_message S1 = lit "Ready").
  { subst S1. cbn [app_data_dir].
    destruct (load_settings files app) as [st|].
    2: { repeat split; auto. destruct (default_model_consistent app) as (m & H1 & H2).
         exists m. split; assumption. }
    destruct (settings_language st) as [l|];
      [destruct (rstring_eqb l (lit "en") || rstring_eqb l (lit "pt-BR")) eqn:El|];
      (destruct (settings_selected_model_id st) as [mid|];
         [destruct (Models.find_model mid) as [m|] eqn:Em|]);
      cbn [status worker transcript error_message app_data_dir language status_message
           selected_model_id model_path
           with_selected_mic_device with_model_path with_selected_model_id with_language];
      (repeat match goal with |- _ /\ _ => split end); auto;
      try (apply orb_true_iff in El; destruct El as [El|El]; apply rstring_eqb_true in El;
           [left|right]; assumption);
      unfold model_consistent;
      cbn [selected_model_id model_path app_data_dir
           with_selected_mic_device with_model_path with_selected_model_id with_language];
      try (exists m; split; [assumption | apply model_path_or_default_find; assumption]);
      apply default_model_consistent. }
  destruct P as (P1 & P2 & P3 & P4 & P5 & P6 & P7 & P8).
  destruct (is_model_installed fs0 (model_path S1)) eqn:E; cbn [negb].
  - rewrite E. repeat match goal with |- _ /\ _ => split end; assumption.
  - cbn [status worker transcript error_message app_data_dir language status_message
         model_path set_status_message].
    rewrite E. repeat match goal with |- _ /\ _ => split end; try assumption; reflexivity.
Qed.

(** X14.  The install check made at start-up ([is_model_installed]) and the
    one [start_recording] makes ([model_ready]) agree on every file system
    and path. *)
Theorem is_model_installed_model_ready (fs0 : list path) (p : path) :
  is_model_installed fs0 p = model_ready fs0 p.
Proof.
  unfold is_model_installed, model_ready.
  destruct (path_exists fs0 p); cbn [negb orb andb]; [|reflexivity].
  destruct (path_exists fs0 (join p "config.json")); cbn [negb orb andb]; [reflexivity|].
  destruct (read_dir fs0 p); reflexivity.
Qed.

(** X15.  Settings round trip: when the directory and the file can be
    written, saving a session whose language is [en] or [pt-BR] and whose
    model path is its model's folder, then starting again from the same
    directory, restores the language, the model, its path and the
    microphone. *)
Theorem settings_roundtrip (env : SettingsEnv) (aw : AppWorld) :
  create_dir_ok env = true -> write_ok env = true ->
  let s := state (world aw) in
  (language s = lit "en" \/ language s = lit "pt-BR") -> model_consistent s ->
  let aw' := snd (save_settings env s aw) in
  let s' := new_state (app_data_dir s) (fs (world aw')) (settings_files aw') in
  language s' = language s /\ selected_model_id s' = selected_model_id s /\
  selected_mic_device s' = selected_mic_device s /\ model_path s' = model_path s.
Proof.
  intros Hc Hw. cbv zeta. intros Hl (m & Hm & Hp).
  assert (El : rstring_eqb (language (state (world aw))) (lit "en")
               || rstring_eqb (language (state (world aw))) (lit "pt-BR") = true)
    by (destruct Hl as [-> | ->]; reflexivity).
  unfold new_state. cbv zeta. cbn [app_data_dir].
  rewrite (save_settings_load env _ aw Hc Hw).
  cbn [settings_language settings_selected_model_id settings_selected_mic_device].
  rewrite El, Hm.
  cbn [app_data_dir with_language with_selected_model_id with_model_path
       with_selected_mic_device].
  rewrite (model_path_or_default_find _ _ m Hm), <- Hp.
  destruct (is_model_installed _ _); cbn [negb]; repeat split.
Qed.

Lemma settings_roundtrip_witness :
  create_dir_ok settings_ok_env = true /\
  write_ok settings_ok_env = true /\
  language (state (world sample_app_world)) = lit "pt-BR" /\
  model_consistent (state (world sample_app_world)) /\
  language (new_state [lit "data"]
              (fs (world (snd (save_settings settings_ok_env
                                 (state (world sample_app_world)) sample_app_world))))
              (settings_files (snd (save_settings settings_ok_env
                                 (state (world sample_app_world)) sample_app_world))))
  = lit "pt-BR".
Proof.
  assert (Hm : model_consistent (state (world sample_app_world)))
    by (eexists; split; reflexivity).
  split; [reflexivity|]. split; [reflexivity|]. split; [reflexivity|]. split; [exact Hm|].
  destruct (settings_roundtrip settings_ok_env sample_app_world
              eq_refl eq_refl (or_intror eq_refl) Hm) as (Hl & _).
  exact Hl.
Defined.

(** X16.  [set_language] rejects any language other than [en] and [pt-BR]
    and then changes nothing; otherwise it succeeds, changes only the
    language (whether or not saving works) and, when saving works, the
    settings file holds the new language with the current model and
    microphone. *)
Theorem set_language_spec (env : SettingsEnv) (l : rstring) (aw : AppWorld) :
  (l <> lit "en" -> l <> lit "pt-BR" ->
   set_language env l aw = (Err (lit "unsupported language"), aw)) /\
  ((l = lit "en" \/ l = lit "pt-BR") ->
   let aw' := snd (set_language env l aw) in
   fst (set_language env l aw) = Ok tt /\
   state (world aw') = with_language l (state (world aw)) /\
   (create_dir_ok env = true -> write_ok env = true ->
    load_settings (settings_files aw') (app_data_dir (state (world aw)))
    = Some {| settings_language := Some l;
              settings_selected_model_id := Some (selected_model_id (state (world aw)));
              settings_selected_mic_device := selected_mic_device (state (world aw)) |})).
Proof.
  split.
  - intros H1 H2. unfold set_language.
    rewrite (rstring_eqb_false _ _ H1), (rstring_eqb_false _ _ H2). reflexivity.
  - intros Hl. cbv zeta.
    assert (E : negb (rstring_eqb l (lit "en")) && negb (rstring_eqb l (lit "pt-BR")) = false)
      by (destruct Hl as [-> | ->]; reflexivity).
    unfold set_language. rewrite E. am_unfold.
    split; [reflexivity|]. split; [reflexivity|].
    intros Hc Hw. apply (save_settings_load env (with_language l (state (world aw))) _ Hc Hw).
Qed.

(** X17.  [set_model] rejects an id outside the catalogue, and any change
    while recording, without changing anything; otherwise it selects the
    model and its folder, clears the error, sets [Ready] with its message
    and keeps the language, microphone, worker and transcript. *)
Theorem set_model_spec (env : SettingsEnv) (model_id : rstring) (aw : AppWorld) :
  let s := state (world aw) in
  (Models.find_model model_id = None ->
   set_model env model_id aw = (Err (lit "unsupported model id: " ++ model_id), aw)) /\
  (Models.find_model model_id <> None -> status s = Recording ->
   set_model env model_id aw = (Err (lit "cannot change model while recording"), aw)) /\
  (Models.find_model model_id <> None -> status s <> Recording ->
   let s' := state (world (snd (set_model env model_id aw))) in
   fst (set_model env model_id aw) = Ok tt /\ selected_model_id s' = model_id /\
   model_consistent s' /\ status s' = Ready /\ error_message s' = None /\
   status_message s' = lit "Model selected. Click Install Model if missing." /\
   language s' = language s /\ selected_mic_device s' = selected_mic_device s /\
   worker s' = worker s /\ transcript s' = transcript s).
Proof.
  destruct aw as [[st fs0 lg] sf]. cbv zeta. cbn [world state]. unfold set_model.
  destruct (Models.find_model model_id) as [m|] eqn:Em;
    [|split; [reflexivity|split; intros H; congruence]].
  split; [discriminate|]. split.
  - intros _ H. am_unfold. rewrite H. reflexivity.
  - intros _ H. apply AppStatus_eqb_false in H. am_unfold. rewrite H. am_unfold.
    unfold Models.model_path. cbn [app_data_dir]. rewrite Em. am_unfold.
    cbn [set_status_message set_status set_error_message with_model_path
         with_selected_model_id selected_model_id status error_message status_message
         language selected_mic_device worker transcript].
    repeat split. exists m. split; [exact Em|reflexivity].
Qed.

(** X18.  [set_audio_inputs] is refused while recording, without change;
    otherwise it changes only the microphone, which becomes the given
    device exactly when one is given and it is not blank. *)
Theorem set_audio_inputs_spec (env : SettingsEnv) (mic_device : option rstring)
    (aw : AppWorld) :
  let s := state (world aw) in
  (status s = Recording ->
   set_audio_inputs env mic_device aw =
   (Err (lit "cannot change audio input while recording"), aw)) /\
  (status s <> Recording ->
   let s' := state (world (snd (set_audio_inputs env mic_device aw))) in
   fst (set_audio_inputs env mic_device aw) = Ok tt /\
   s' = with_selected_mic_device (selected_mic_device s') s /\
   (forall v, selected_mic_device s' = Some v <-> mic_device = Some v /\ non_blank v = true)).
Proof.
  destruct aw as [[st fs0 lg] sf]. cbv zeta. cbn [world state]. unfold set_audio_inputs. split.
  - intros H. am_unfold. rewrite H. reflexivity.
  - intros H. apply AppStatus_eqb_false in H. am_unfold. rewrite H. am_unfold.
    cbn [selected_mic_device with_selected_mic_device world state fst snd].
    split; [reflexivity|]. split; [reflexivity|].
    intros v. destruct mic_device as [value|]; [|split; [discriminate|intros [? _]; discriminate]].
    destruct (non_blank value) eqn:Eb; split.
    + intros E. injection E as <-. auto.
    + intros [E _]. congruence.
    + discriminate.
    + intros [E Hv]. injection E as <-. congruence.
Qed.

(** X19.  [clear_error] always succeeds and removes the error; the status
    is never [Error] afterwards: an [Error] status becomes [Ready] with the
    message [Ready], and otherwise nothing but the error changes. *)
Theorem clear_error_spec (aw : AppWorld) :
  let s := state (world aw) in
  let s' := state (world (snd (clear_error aw))) in
  fst (clear_error aw) = Ok tt /\ error_message s' = None /\ status s' <> Error /\
  (status s <> Error ->
   s' = set_error_message None s) /\
  (status s = Error -> status s' = Ready /\ status_message s' = lit "Ready").
Proof.
  destruct aw as [[st fs0 lg] sf]. cbv zeta. cbn [world state].
  unfold clear_error. am_unfold. cbn [set_error_message status].
  destruct (status st) eqn:Es; cbn [AppStatus_eqb];
    try (match goal with |- context [if ?c then _ else _] => destruct c end);
    cbn [set_status_message set_status set_error_message error_message status status_message];
    repeat split; try discriminate; try congruence.
Qed.

(** X20.  [choose_default_mic] gives nothing for no device; otherwise it
    picks a device of highest score, the last one among equals. *)
Theorem choose_default_mic_spec (to_lowercase : rstring -> rstring)
    (devices : list Audio.AudioDeviceOption) :
  (devices = [] -> Audio.choose_default_mic to_lowercase devices = None) /\
  (devices <> [] -> exists pre d post, devices = pre ++ d :: post /\
    Audio.choose_default_mic to_lowercase devices = Some (Audio.id d) /\
    (forall e, In e pre -> Audio.score_mic to_lowercase (Audio.name e)
                           <= Audio.score_mic to_lowercase (Audio.name d)) /\
    (forall e, In e post -> Audio.score_mic to_lowercase (Audio.name e)
                            < Audio.score_mic to_lowercase (Audio.name d))).
Proof.
  split; [intros ->; reflexivity|]. apply choose_default_mic_some.
Qed.

(** X21.  After a successful device listing, [refresh_audio_devices_inner]
    returns the devices and changes only the microphone: a selected
    microphone still listed is kept, a non-empty list always leaves a
    listed device selected, and an empty list leaves none. *)
Theorem refresh_audio_devices_selection (to_lowercase : rstring -> rstring)
    (env : SettingsEnv) (devices : list Audio.AudioDeviceOption) (aw : AppWorld) :
  let s := state (world aw) in
  let r := refresh_audio_devices_inner to_lowercase env (Ok devices) aw in
  let s' := state (world (snd r)) in
  fst r = Ok devices /\
  s' = with_selected_mic_device (selected_mic_device s') s /\
  (forall m, selected_mic_device s = Some m -> In m (map Audio.id devices) ->
             selected_mic_device s' = Some m) /\
  (devices <> [] -> exists d, In d devices /\ selected_mic_device s' = Some (Audio.id d)) /\
  (devices = [] -> selected_mic_device s' = None).
Proof.
  destruct aw as [[st fs0 lg] sf]. cbv zeta. cbn [world state].
  unfold refresh_audio_devices_inner. am_unfold.
  cbn [world state fst snd].
  destruct (selected_mic_device st) as [mic|] eqn:Esel.
  - destruct (existsb (fun device => rstring_eqb (Audio.id device) mic) devices) eqn:Ev;
      cbn [negb].
    + apply existsb_id_in in Ev.
      split; [reflexivity|]. split; [destruct st; cbn in *; subst; reflexivity|].
      split; [intros m E _; congruence|].
      split; [|intros ->; destruct Ev].
      intros _. apply in_map_iff in Ev. destruct Ev as (d & E & Hd).
      exists d. split; [exact Hd|]. rewrite Esel, E. reflexivity.
    + split; [reflexivity|]. split; [reflexivity|].
      split; [intros m E Hin; injection E as <-; apply existsb_id_in in Hin; congruence|].
      split.
      * intros Hne. destruct (choose_default_mic_some to_lowercase devices Hne)
          as (pre & d & post & Eq & Ec & _ & _).
        exists d. split; [rewrite Eq; apply in_or_app; right; left; reflexivity|].
        exact Ec.
      * intros ->. reflexivity.
  - cbn [negb]. split; [reflexivity|]. split; [reflexivity|].
    split; [discriminate|].
    split.
    + intros Hne. destruct (choose_default_mic_some to_lowercase devices Hne)
        as (pre & d & post & Eq & Ec & _ & _).
      exists d. split; [rewrite Eq; apply in_or_app; right; left; reflexivity|].
      exact Ec.
    + intros ->. reflexivity.
Qed.

(** X22.  The commands [set_language], [set_audio_inputs], [set_model],
    [clear_error] and [refresh_audio_devices_inner] keep the model path at
    the folder of the selected catalogue model. *)
Theorem model_consistent_commands (env : SettingsEnv) (aw : AppWorld) :
  model_consistent (state (world aw)) ->
  (forall l, model_consistent (state (world (snd (set_language env l aw))))) /\
  (forall mic, model_consistent (state (world (snd (set_audio_inputs env mic aw))))) /\
  (forall model_id, model_consistent (state (world (snd (set_model env model_id aw))))) /\
  model_consistent (state (world (snd (clear_error aw)))) /\
  (forall to_lowercase devices,
     model_consistent (state (world (snd (refresh_audio_devices_inner to_lowercase env
                                            devices aw))))).
Proof.
  destruct aw as [[st fs0 lg] sf]. cbn [world state]. intros Hc.
  repeat match goal with |- _ /\ _ => split end.
  - intros l. unfold set_language.
    destruct (negb (rstring_eqb l (lit "en")) && negb (rstring_eqb l (lit "pt-BR")));
      am_unfold; exact Hc.
  - intros mic. unfold set_audio_inputs. am_unfold.
    destruct (AppStatus_eqb (status st) Recording); am_unfold; exact Hc.
  - intros model_id. unfold set_model.
    destruct (Models.find_model model_id) as [m|] eqn:Em; am_unfold; [|exact Hc].
    destruct (AppStatus_eqb (status st) Recording); am_unfold; [exact Hc|].
    unfold Models.model_path. cbn [app_data_dir]. rewrite Em. am_unfold.
    exists m. split; [exact Em|reflexivity].
  - unfold clear_error. am_unfold.
    destruct (AppStatus_eqb _ Error);
      [destruct (match install_progress _ with Some p => Qeq_bool p 1 | None => false end)|];
      exact Hc.
  - intros to_lowercase [devices|e]; unfold refresh_audio_devices_inner; am_unfold;
      [|exact Hc].
    destruct (negb _); exact Hc.
Qed.

Lemma model_consistent_commands_witness :
  model_consistent (state (world sample_app_world)) /\
  model_consistent (state (world (snd (set_model settings_ok_env
                                         (lit "large-v3-turbo") sample_app_world)))).
Proof.
  assert (Hm : model_consistent (state (world sample_app_world)))
    by (eexists; split; reflexivity).
  split; [exact Hm|].
  destruct (model_consistent_commands settings_ok_env
              sample_app_world Hm) as (_ & _ & Hset & _).
  apply Hset.
Defined.

Lemma stop_command_eq (env : StopEnv) (w : World) :
  Commands.stop_recording env w =
  match Worker.stop_recording env w with
  | (Ok p, w1) => (Ok p, w1)
  | (Err e, w1) => (Err e, snd (Commands.set_error e w1))
  end.
Proof.
  unfold Commands.stop_recording.
  destruct (Worker.stop_recording env w) as [[p|e] w1]; [reflexivity|].
  destruct (Commands.set_error e w1). reflexivity.
Qed.

Lemma set_error_world (msg : rstring) (w1 : World) :
  let w' := snd (Commands.set_error msg w1) in
  status (state w') = Error /\ status_message (state w') = lit "Error" /\
  error_message (state w') = Some msg /\ install_progress (state w') = None /\
  worker (state w') = worker (state w1) /\
  last_saved_path (state w') = last_saved_path (state w1) /\
  log w' = EmitState (state w') :: log w1.
Proof. cbv zeta. repeat split. Qed.

Lemma set_error_saves (msg : rstring) (w w1 : World) :
  (forall t, In (SaveMarkdown t) (log w1) -> In (SaveMarkdown t) (log w)) ->
  forall t, In (SaveMarkdown t) (log (snd (Commands.set_error msg w1))) ->
            In (SaveMarkdown t) (log w).
Proof.
  intros H t Ht. destruct (set_error_world msg w1) as (_ & _ & _ & _ & _ & _ & Hl).
  rewrite Hl in Ht. destruct Ht as [Ht|Ht]; [discriminate Ht|exact (H t Ht)].
Qed.

(** C6 (as amended).  Every failure of the [stop_recording] command sets
    the status to [Error], its message to "Error" and the error message to
    the failure's message, and clears the install progress.  Outside
    [Recording] that message is "recording is not active"; in [Recording]
    without a worker it is "missing worker process"; when writing "stop"
    to the worker fails it is "failed signaling worker to stop", and when
    the worker neither exits within the grace period nor can be killed it
    is "failed killing worker".  Only when the worker stops without such a
    failure and the transcript read afterwards is blank is it the
    no-speech message.  In [Recording] the worker is cleared in all these
    cases; in none of them is a transcript saved or a new path recorded. *)
Theorem stop_command_failures (env : StopEnv) (w : World) :
  (forall msg w', Commands.stop_recording env w = (Err msg, w') ->
   status (state w') = Error /\ status_message (state w') = lit "Error" /\
   error_message (state w') = Some msg /\ install_progress (state w') = None) /\
  (status (state w) <> Recording ->
   exists w', Commands.stop_recording env w = (Err (lit "recording is not active"), w') /\
     worker (state w') = worker (state w) /\
     last_saved_path (state w') = last_saved_path (state w) /\
     (forall t, In (SaveMarkdown t) (log w') -> In (SaveMarkdown t) (log w))) /\
  (status (state w) = Recording -> worker (state w) = None ->
   exists w', Commands.stop_recording env w = (Err (lit "missing worker process"), w') /\
     worker (state w') = None /\
     last_saved_path (state w') = last_saved_path (state w) /\
     (forall t, In (SaveMarkdown t) (log w') -> In (SaveMarkdown t) (log w))) /\
  (forall wp i, status (state w) = Recording -> worker (state w) = Some wp ->
   stdin wp = Some i -> stop_write_ok env = false ->
   exists w', Commands.stop_recording env w
              = (Err (lit "failed signaling worker to stop"), w') /\
     worker (state w') = None /\
     last_saved_path (state w') = last_saved_path (state w) /\
     (forall t, In (SaveMarkdown t) (log w') -> In (SaveMarkdown t) (log w))) /\
  (forall wp, status (state w) = Recording -> worker (state w) = Some wp ->
   (stdin wp = None \/ stop_write_ok env = true) ->
   exited_in_grace env = false -> kill_ok env = false ->
   exists w', Commands.stop_recording env w = (Err (lit "failed killing worker"), w') /\
     worker (state w') = None /\
     last_saved_path (state w') = last_saved_path (state w) /\
     (forall t, In (SaveMarkdown t) (log w') -> In (SaveMarkdown t) (log w))) /\
  (forall wp, status (state w) = Recording -> worker (state w) = Some wp ->
   (stdin wp = None \/ stop_write_ok env = true) ->
   (exited_in_grace env = true \/ kill_ok env = true) ->
   non_blank (transcript (state_at_check env (state w))) = false ->
   exists w', Commands.stop_recording env w = (Err no_speech_message, w') /\
     worker (state w') = None /\
     last_saved_path (state w') = last_saved_path (state_at_check env (state w)) /\
     (forall t, In (SaveMarkdown t) (log w') -> In (SaveMarkdown t) (log w))).
Proof.
  split; [|split; [|split; [|split; [|split]]]].
  - intros msg w'. rewrite stop_command_eq.
    destruct (Worker.stop_recording env w) as [[p|e] w1]; [discriminate|].
    intros [= -> <-].
    destruct (set_error_world msg w1) as (H1 & H2 & H3 & H4 & _).
    repeat split; assumption.
  - intros Hst. rewrite stop_command_eq, (worker_stop_not_recording env w Hst).
    destruct (set_error_world (lit "recording is not active") w) as (_ & _ & _ & _ & Hw & Hp & _).
    eexists. split; [reflexivity|]. split; [exact Hw|]. split; [exact Hp|].
    apply set_error_saves. auto.
  - intros Hst Hwk.
    destruct (worker_stop_missing_worker env w Hst Hwk) as (w1 & E & Hw1 & Hp1 & Hl1).
    rewrite stop_command_eq, E.
    destruct (set_error_world (lit "missing worker process") w1) as (_ & _ & _ & _ & Hw & Hp & _).
    eexists. split; [reflexivity|]. split; [congruence|]. split; [congruence|].
    apply set_error_saves. rewrite Hl1. auto.
  - intros wp i Hst Hwk Hi Hwr.
    destruct (worker_stop_signal_fails env w wp i Hst Hwk Hi Hwr) as (w1 & E & Hw1 & Hp1 & Hl1).
    rewrite stop_command_eq, E.
    destruct (set_error_world (lit "failed signaling worker to stop") w1)
      as (_ & _ & _ & _ & Hw & Hp & _).
    eexists. split; [reflexivity|]. split; [congruence|]. split; [congruence|].
    apply set_error_saves. exact Hl1.
  - intros wp Hst Hwk Hin He Hk.
    destruct (worker_stop_kill_fails env w wp Hst Hwk Hin He Hk) as (w1 & E & Hw1 & Hp1 & Hl1).
    rewrite stop_command_eq, E.
    destruct (set_error_world (lit "failed killing worker") w1)
      as (_ & _ & _ & _ & Hw & Hp & _).
    eexists. split; [reflexivity|]. split; [congruence|]. split; [congruence|].
    apply set_error_saves. exact Hl1.
  - intros wp Hst Hwk Hin Hkill Hb.
    destruct (worker_stop_blank env w wp Hst Hwk Hin Hkill Hb) as (w1 & E & Hw1 & Hp1 & Hl1).
    rewrite stop_command_eq, E.
    destruct (set_error_world no_speech_message w1) as (_ & _ & _ & _ & Hw & Hp & _).
    eexists. split; [reflexivity|]. split; [congruence|]. split; [congruence|].
    apply set_error_saves. exact Hl1.
Qed.

(** C6 on a recording whose transcript is a single space: the command
    fails with the no-speech message and the session is in [Error]. *)
Lemma stop_command_failures_witness :
  fst (Commands.stop_recording (sample_stop_env true true (Ok (lit "notes.md")))
         (sample_world Recording (lit " ") (Some sample_worker) []))
  = Err no_speech_message /\
  status (state (snd (Commands.stop_recording (sample_stop_env true true (Ok (lit "notes.md")))
         (sample_world Recording (lit " ") (Some sample_worker) [])))) = Error /\
  error_message (state (snd (Commands.stop_recording
         (sample_stop_env true true (Ok (lit "notes.md")))
         (sample_world Recording (lit " ") (Some sample_worker) [])))) = Some no_speech_message.
Proof.
  destruct (stop_command_failures (sample_stop_env true true (Ok (lit "notes.md")))
              (sample_world Recording (lit " ") (Some sample_worker) []))
    as (Hall & _ & _ & _ & _ & Hblank).
  destruct (Hblank sample_worker eq_refl eq_refl (or_intror eq_refl) (or_introl eq_refl) eq_refl)
    as (w' & Hr & _).
  destruct (Hall _ _ Hr) as (Hs & _ & He & _).
  rewrite Hr. split; [reflexivity|]. split; [exact Hs|exact He].
Defined.

(** C6 refuted: with an empty transcript, a failed write of "stop" to the
    worker makes the command fail with "failed signaling worker to stop",
    and that, not the no-speech message, becomes the session's error
    message. *)
Lemma stop_command_counterexample :
  non_blank (transcript (state (sample_world Recording [] (Some sample_worker) []))) = false /\
  fst (Commands.stop_recording (sample_stop_env false true (Ok (lit "notes.md")))
         (sample_world Recording [] (Some sample_worker) []))
  = Err (lit "failed signaling worker to stop") /\
  status (state (snd (Commands.stop_recording (sample_stop_env false true (Ok (lit "notes.md")))
         (sample_world Recording [] (Some sample_worker) [])))) = Error /\
  error_message (state (snd (Commands.stop_recording
         (sample_stop_env false true (Ok (lit "notes.md")))
         (sample_world Recording [] (Some sample_worker) []))))
  = Some (lit "failed signaling worker to stop") /\
  lit "failed signaling worker to stop" <> no_speech_message.
Proof.
  split; [vm_compute; reflexivity|]. split; [vm_compute; reflexivity|].
  split; [vm_compute; reflexivity|]. split; [vm_compute; reflexivity|].
  vm_compute. discriminate.
Qed.

End CommandsExtra.

(* ------------------------------------------------------------------ *)
(** ** Saved transcripts *)

Module TranscriptExtra.

Import Session Worker SessionExtra TranscriptFile.

Lemma path_eqb_true (p q : path) : path_eqb p q = true -> p = q.
Proof. unfold path_eqb. destruct (list_eq_dec (list_eq_dec Z.eq_dec) p q); congruence. Qed.

Lemma path_eqb_false (p q : path) : p <> q -> path_eqb p q = false.
Proof. unfold path_eqb. destruct (list_eq_dec (list_eq_dec Z.eq_dec) p q); congruence. Qed.

Lemma read_file_write_file (p q : path) (c : rstring) (files : Files) :
  read_file q (write_file p c files) = if path_eqb p q then Some c else read_file q files.
Proof.
  unfold read_file, write_file. cbn [find fst].
  destruct (path_eqb p q) eqn:E; [reflexivity|].
  induction files as [|[r d] files IH]; cbn [filter find fst]; [reflexivity|].
  destruct (path_eqb r p) eqn:Erp; cbn [negb find fst].
  - apply path_eqb_true in Erp. subst r. rewrite E. exact IH.
  - destruct (path_eqb r q); [reflexivity|exact IH].
Qed.

Lemma digits_length (w : nat) (n : Z) : length (digits w n) = w.
Proof.
  revert n. induction w as [|w IH]; intros n; cbn [digits]; [reflexivity|].
  rewrite length_app, IH. cbn [length]. lia.
Qed.

Lemma digits_inj (w : nat) (a b : Z) :
  0 <= a < 10 ^ Z.of_nat w -> 0 <= b < 10 ^ Z.of_nat w -> digits w a = digits w b -> a = b.
Proof.
  revert a b. induction w as [|w IH]; intros a b Ha Hb E.
  - cbn in Ha, Hb. lia.
  - cbn [digits] in E. apply app_inj_tail in E. destruct E as [E1 E2].
    rewrite Nat2Z.inj_succ, Z.pow_succ_r in Ha, Hb by lia.
    assert (Hd : a / 10 = b / 10).
    { apply IH; [| |exact E1].
      - split; [apply Z.div_pos; lia | apply Z.div_lt_upper_bound; lia].
      - split; [apply Z.div_pos; lia | apply Z.div_lt_upper_bound; lia]. }
    rewrite (Z.div_mod a 10), (Z.div_mod b 10) by lia. lia.
Qed.

Lemma app_inj_length {A} (l1 l2 r1 r2 : list A) :
  length l1 = length l2 -> l1 ++ r1 = l2 ++ r2 -> l1 = l2 /\ r1 = r2.
Proof.
  revert l2. induction l1 as [|x l1 IH]; intros [|y l2] Hl E; cbn in Hl, E; try discriminate.
  - split; [reflexivity|exact E].
  - injection E as -> E. destruct (IH l2 ltac:(lia) E) as [-> ->]. split; reflexivity.
Qed.

Lemma format_timestamp_length (t : DateTime) : length (format_timestamp t) = 16%nat.
Proof. unfold format_timestamp. rewrite !length_app, !digits_length. reflexivity. Qed.

Lemma format_timestamp_inj (t1 t2 : DateTime) :
  in_format_range t1 -> in_format_range t2 ->
  format_timestamp t1 = format_timestamp t2 -> t1 = t2.
Proof.
  destruct t1 as [y1 mo1 d1 h1 mi1], t2 as [y2 mo2 d2 h2 mi2].
  unfold in_format_range, format_timestamp. cbn [year month day hour minute].
  intros R1 R2 E.
  destruct (app_inj_length _ _ _ _ ltac:(rewrite !digits_length; reflexivity) E) as [Ey E0].
  apply app_inv_head in E0.
  destruct (app_inj_length _ _ _ _ ltac:(rewrite !digits_length; reflexivity) E0) as [Emo E3].
  apply app_inv_head in E3.
  destruct (app_inj_length _ _ _ _ ltac:(rewrite !digits_length; reflexivity) E3) as [Ed E4].
  apply app_inv_head in E4.
  destruct (app_inj_length _ _ _ _ ltac:(rewrite !digits_length; reflexivity) E4) as [Eh E5].
  apply app_inv_head in E5.
  apply digits_inj in Ey, Emo, Ed, Eh, E5; cbn; try lia.
  subst. reflexivity.
Qed.

Lemma transcript_name_inj (d : path) (t1 t2 : DateTime) :
  in_format_range t1 -> in_format_range t2 ->
  join d "WhisperBar" ++ [lit "Transcript-" ++ format_timestamp t1 ++ lit ".md"] =
  join d "WhisperBar" ++ [lit "Transcript-" ++ format_timestamp t2 ++ lit ".md"] ->
  t1 = t2.
Proof.
  intros R1 R2 E. apply app_inj_tail in E. destruct E as [_ E].
  apply app_inv_head in E.
  destruct (app_inj_length _ _ _ _
              ltac:(rewrite !format_timestamp_length; reflexivity) E) as [E' _].
  apply format_timestamp_inj; assumption.
Qed.

(** X23.  When the Documents directory exists and both file-system calls
    succeed, [save_markdown] returns
    [Documents/WhisperBar/Transcript-<timestamp>.md], that file then holds
    the transcript, and every other file is unchanged. *)
Theorem save_markdown_success (documents_dir : path) (now : DateTime) (transcript : rstring)
    (files : Files) :
  let r := save_markdown (Some documents_dir) true WriteOk now transcript files in
  let file_path := join documents_dir "WhisperBar"
                   ++ [lit "Transcript-" ++ format_timestamp now ++ lit ".md"] in
  fst r = Ok file_path /\ read_file file_path (snd r) = Some transcript /\
  (forall q, q <> file_path -> read_file q (snd r) = read_file q files).
Proof.
  cbv zeta. cbn [save_markdown negb fst snd].
  split; [reflexivity|]. split.
  - rewrite read_file_write_file, path_eqb_refl. reflexivity.
  - intros q Hq. rewrite read_file_write_file, path_eqb_false by congruence. reflexivity.
Qed.


(** X25.  Two successful saves in the same minute write the same file: the
    second transcript replaces the first, every other file is as before the
    first save, so the first transcript survives nowhere unless it equals
    the second or some other file already held it. *)
Theorem save_markdown_same_minute (d : path) (t : DateTime) (x1 x2 : rstring) (files : Files) :
  let (r1, f1) := save_markdown (Some d) true WriteOk t x1 files in
  let (r2, f2) := save_markdown (Some d) true WriteOk t x2 f1 in
  exists p, r1 = Ok p /\ r2 = Ok p /\ read_file p f2 = Some x2 /\
    (forall q, q <> p -> read_file q f2 = read_file q files) /\
    (forall q, read_file q f2 = Some x1 -> x1 = x2 \/ (q <> p /\ read_file q files = Some x1)).
Proof.
  cbn [save_markdown negb].
  eexists. split; [reflexivity|]. split; [reflexivity|].
  assert (Hr : forall q, read_file q (write_file
             (join d "WhisperBar" ++ [lit "Transcript-" ++ format_timestamp t ++ lit ".md"]) x2
             (write_file
             (join d "WhisperBar" ++ [lit "Transcript-" ++ format_timestamp t ++ lit ".md"]) x1
             files))
           = if path_eqb (join d "WhisperBar" ++ [lit "Transcript-" ++ format_timestamp t ++ lit ".md"]) q
             then Some x2 else read_file q files).
  { intros q. rewrite !read_file_write_file.
    destruct (path_eqb _ q); reflexivity. }
  split; [rewrite Hr, path_eqb_refl; reflexivity|]. split.
  - intros q Hq. rewrite Hr, path_eqb_false by congruence. reflexivity.
  - intros q Hq. rewrite Hr in Hq.
    destruct (path_eqb _ q) eqn:E.
    + left. congruence.
    + right. split; [|exact Hq].
      intros Eq. rewrite Eq, path_eqb_refl in E. discriminate.
Qed.

(** X26.  Two successful saves in different minutes (timestamps in the
    range that [%Y-%m-%d-%H-%M] renders without overflow) write different
    files, and both transcripts are kept. *)
Theorem save_markdown_distinct_minutes (d : path) (t1 t2 : DateTime) (x1 x2 : rstring)
    (files : Files) :
  in_format_range t1 -> in_format_range t2 -> t1 <> t2 ->
  let (r1, f1) := save_markdown (Some d) true WriteOk t1 x1 files in
  let (r2, f2) := save_markdown (Some d) true WriteOk t2 x2 f1 in
  exists p1 p2, r1 = Ok p1 /\ r2 = Ok p2 /\ p1 <> p2 /\
    read_file p1 f2 = Some x1 /\ read_file p2 f2 = Some x2.
Proof.
  intros R1 R2 Hne. cbn [save_markdown negb].
  eexists; eexists. split; [reflexivity|]. split; [reflexivity|].
  assert (Hp : join d "WhisperBar" ++ [lit "Transcript-" ++ format_timestamp t1 ++ lit ".md"]
               <> join d "WhisperBar" ++ [lit "Transcript-" ++ format_timestamp t2 ++ lit ".md"])
    by (intros E; apply Hne, (transcript_name_inj d); assumption).
  split; [exact Hp|]. split.
  - rewrite read_file_write_file, path_eqb_false by congruence.
    rewrite read_file_write_file, path_eqb_refl. reflexivity.
  - rewrite read_file_write_file, path_eqb_refl. reflexivity.
Qed.

Lemma save_markdown_distinct_minutes_witness :
  in_format_range sample_time /\
  in_format_range {| year := 2026; month := 10; day := 15; hour := 9; minute := 31 |} /\
  sample_time <> {| year := 2026; month := 10; day := 15; hour := 9; minute := 31 |} /\
  let (r1, f1) := save_markdown (Some [lit "docs"]) true WriteOk sample_time (lit "first") [] in
  let (r2, f2) := save_markdown (Some [lit "docs"]) true WriteOk
                    {| year := 2026; month := 10; day := 15; hour := 9; minute := 31 |}
                    (lit "second") f1 in
  exists p1 p2, r1 = Ok p1 /\ r2 = Ok p2 /\ p1 <> p2 /\
    read_file p1 f2 = Some (lit "first") /\ read_file p2 f2 = Some (lit "second").
Proof.
  assert (R1 : in_format_range sample_time)
    by (unfold in_format_range; cbn; lia).
  assert (R2 : in_format_range {| year := 2026; month := 10; day := 15; hour := 9; minute := 31 |})
    by (unfold in_format_range; cbn; lia).
  assert (Hne : sample_time <> {| year := 2026; month := 10; day := 15; hour := 9; minute := 31 |})
    by (unfold sample_time; intros E; injection E; lia).
  split; [exact R1|]. split; [exact R2|]. split; [exact Hne|].
  exact (save_markdown_distinct_minutes [lit "docs"] sample_time
           {| year := 2026; month := 10; day := 15; hour := 9; minute := 31 |}
           (lit "first") (lit "second") [] R1 R2 Hne).
Defined.

End TranscriptExtra.
